(** * Gold and silver rally dashboard (src/App.py)

    A shallow embedding of the two data functions of the dashboard,
    [load_data] and [calculate_rolling_betas], and the properties of the
    merged table and of the rolling regression that follow from the code.

    Conventions of the model.
    - A float64 cell read from a sheet is an [option Q]: a finite value, held
      exactly, or [None] for NaN (pandas' null).  Arithmetic is exact rational
      arithmetic; rounding is not modelled.
    - The result of a float division is a [float64], which adds the infinities
      that a division by zero produces.
    - A cell of a column whose type pandas has not fixed is a [cell]: a number,
      a text or an empty cell.
    - A [Timestamp] is an integer (its position on the time line).
    - A pandas DataFrame is the list of its rows; a column is the list of the
      values of one field.
    - What the third-party libraries compute (parsing of texts, square roots,
      the least-squares fit) is taken from a [Library] record.
    - The two sheets have the columns the dashboard reads, so the test
      [col in df.columns] of [load_data] always holds; their price columns
      are float64 columns and their date cells are not empty.
    - [window] is a number of rows, a natural number. *)

From Stdlib Require Import String ZArith QArith Lqa Lia Bool Arith List.
From Stdlib Require Import Sorting.Sorted Permutation.
Import ListNotations.
Local Open Scope nat_scope.

Set Implicit Arguments.

(** ** Values *)

(** A cell as [pd.read_excel] delivers it. *)
Inductive cell : Type :=
| Num (q : Q)
| Text (s : string)
| Null.

(** A cell of a [Date] column before [pd.to_datetime]: a date cell of the
    sheet, or a text still to be parsed. *)
Inductive date_cell : Type :=
| Stamp (t : Z)
| DateText (s : string).

(** The result of a float64 division. *)
Inductive float64 : Type :=
| Fin (q : Q)
| Inf (negative : bool)
| NaN.

Definition cell_isnull (c : cell) : bool :=
  match c with Null => true | _ => false end.

Definition float_isnull (x : option Q) : bool :=
  match x with None => true | Some _ => false end.

Definition float64_isnull (x : float64) : bool :=
  match x with NaN => true | _ => false end.

Definition cell_of_float (x : option Q) : cell :=
  match x with Some q => Num q | None => Null end.

(** Float division of two finite values: [0/0] is NaN, [a/0] an infinity
    (the sign of a zero divisor is not modelled). *)
Definition fdiv (a b : Q) : float64 :=
  if Qeq_bool b 0
  then (if Qeq_bool a 0 then NaN else Inf (negb (Qle_bool 0 a)))
  else Fin (a / b).

(** Elementwise [/] of two float64 cells: NaN as soon as one side is NaN. *)
Definition float_div (a b : option Q) : float64 :=
  match a, b with
  | Some x, Some y => fdiv x y
  | _, _ => NaN
  end.

(** ** Exceptions *)

Inductive exn : Type :=
| ParseError (value : string)
| IndexError
| FitError (msg : string).

Inductive result (A : Type) : Type :=
| Ok (a : A)
| Raise (e : exn).

Arguments Ok {A} a.
Arguments Raise {A} e.

Definition bind {A B : Type} (m : result A) (k : A -> result B) : result B :=
  match m with
  | Ok a => k a
  | Raise e => Raise e
  end.

Notation "x <- m ;; k" := (bind m (fun x => k))
  (at level 61, m at next level, right associativity).

(** [try: body except: handler]. *)
Definition try_except {A : Type} (body : result A) (handler : exn -> result A)
  : result A :=
  match body with
  | Ok a => Ok a
  | Raise e => handler e
  end.

Fixpoint mapM {A B : Type} (f : A -> result B) (l : list A) : result (list B) :=
  match l with
  | [] => Ok []
  | a :: l' => b <- f a ;; bs <- mapM f l' ;; Ok (b :: bs)
  end.

Fixpoint foldM {A S : Type} (f : S -> A -> result S) (l : list A) (s : S)
  : result S :=
  match l with
  | [] => Ok s
  | a :: l' => s' <- f s a ;; foldM f l' s'
  end.

(** ** The libraries *)

(** What pandas, numpy and statsmodels compute and the model does not:
    - [parse_datetime]: the date a text denotes, if [pd.to_datetime] can
      parse it;
    - [parse_numeric]: the number a text denotes, if [pd.to_numeric] can
      parse it;
    - [sqrt]: the square root;
    - [OLS_fit y X]: [sm.OLS(y, X).fit().params], the fitted coefficients
      labelled by column, or the exception the fit raises. *)
Record Library : Type := {
  parse_datetime : string -> option Z;
  parse_numeric : string -> option Q;
  sqrt : Q -> Q;
  OLS_fit : list (option Q) -> list (string * list cell) ->
            result (list (string * Q))
}.

(** ** Generic list operations *)

(** [l.iloc[a:b]] for [0 <= a]. *)
Definition iloc_slice {A : Type} (a b : nat) (l : list A) : list A :=
  firstn (b - a) (skipn a l).

(** [l.iloc[i]]. *)
Definition iloc {A : Type} (l : list A) (i : nat) : result A :=
  match nth_error l i with
  | Some a => Ok a
  | None => Raise IndexError
  end.

(** [[f(k, a) for k, a in enumerate(l, start)]]. *)
Fixpoint imap_from {A B : Type} (start : nat) (f : nat -> A -> B) (l : list A)
  : list B :=
  match l with
  | [] => []
  | a :: l' => f start a :: imap_from (S start) f l'
  end.

Definition imap {A B : Type} (f : nat -> A -> B) (l : list A) : list B :=
  imap_from 0 f l.

(** [Series.get(name, None)] on a labelled series. *)
Fixpoint series_get {A : Type} (name : string) (s : list (string * A)) : option A :=
  match s with
  | [] => None
  | (n, a) :: s' => if String.eqb n name then Some a else series_get name s'
  end.

(** ** The input sheets *)

(** A row of gold_silver_data.xlsx; [D] is the type of its date. *)
Record PriceRow (D : Type) : Type := {
  p_Date : D;
  p_Gold_Price : option Q;
  p_Silver_Price : option Q;
  p_Gold_Returns : cell;
  p_Silver_Returns : cell
}.

(** A row of macro_data.xlsx. *)
Record MacroRow (D : Type) : Type := {
  m_Date : D;
  m_India_CPI : cell;
  m_DXY : cell;
  m_US10Y_Yield : cell;
  m_GoogleTrends_Gold : cell;
  m_GoogleTrends_Silver : cell
}.

(** A row of [pd.merge(gold_silver, macro, on='Date', how='inner')]. *)
Record Joined : Type := {
  j_Date : Z;
  j_Gold_Price : option Q;
  j_Silver_Price : option Q;
  j_Gold_Returns : cell;
  j_Silver_Returns : cell;
  j_India_CPI : cell;
  j_DXY : cell;
  j_US10Y_Yield : cell;
  j_GoogleTrends_Gold : cell;
  j_GoogleTrends_Silver : cell
}.

(** A row of the table [load_data] returns. *)
Record Row : Type := {
  Date : Z;
  Gold_Close : option Q;
  Silver_Close : option Q;
  Gold_Returns : option Q;
  Silver_Returns : option Q;
  India_CPI : cell;
  DXY : option Q;
  US10Y_Yield : option Q;
  GoogleTrends_Gold : cell;
  GoogleTrends_Silver : cell;
  Gold_Volatility : option Q;
  Silver_Volatility : option Q;
  Gold_to_DXY_Corr : float64;
  Gold_to_Yield_Corr : float64;
  Gold_Silver_Ratio : float64
}.

(** A record of [rolling_results]. *)
Record RegressionPoint : Type := {
  rp_Date : Z;
  Inflation_Beta : option Q;
  DXY_Beta : option Q;
  US10Y_Yield_Beta : option Q;
  Sentiment_Beta : option Q
}.

(** ** Rolling statistics *)

Definition all_some {A : Type} (l : list (option A)) : option (list A) :=
  fold_right
    (fun x acc =>
       match x, acc with
       | Some a, Some l' => Some (a :: l')
       | _, _ => None
       end)
    (Some []) l.

(** The sum of a column, kept in lowest terms. *)
Definition Qsum (l : list Q) : Q :=
  fold_right (fun x acc => Qred (x + acc)) 0%Q l.

Definition Qlen {A : Type} (l : list A) : Q := inject_Z (Z.of_nat (length l)).

Definition mean (l : list Q) : Q := (Qsum l / Qlen l)%Q.

(** Sum of squared deviations from the mean. *)
Definition ssqdm (l : list Q) : Q :=
  let m := mean l in
  Qsum (map (fun x => ((x - m) * (x - m))%Q) l).

(** Sample variance ([ddof=1]). *)
Definition var (l : list Q) : Q := (ssqdm l / (Qlen l - 1))%Q.

(** [col.rolling(n)]: the statistic of the [n] values ending at each row, and
    [nan] on the rows that have fewer than [n] values behind them. *)
Definition rolling {A B : Type} (n : nat) (stat : list A -> B) (nan : B)
    (col : list A) : list B :=
  map (fun k => if S k <? n then nan else stat (iloc_slice (S k - n) (S k) col))
      (seq 0 (length col)).

Section WithLibrary.

Variable lib : Library.

(** The standard deviation of a full window; NaN when the window holds a NaN
    ([min_periods] is the window size) or a single value. *)
Definition window_std (w : list (option Q)) : option Q :=
  match all_some w with
  | None => None
  | Some xs => if length xs <=? 1 then None else Some (sqrt lib (var xs))
  end.

(** [col.rolling(n).std()]. *)
Definition rolling_std (n : nat) (col : list (option Q)) : list (option Q) :=
  rolling n window_std None col.

Definition pair_some (p : option Q * option Q) : option (Q * Q) :=
  match p with
  | (Some x, Some y) => Some (x, y)
  | _ => None
  end.

(** Pearson correlation of a full window of pairs, as pandas computes it:
    [(mean(xy) - mean(x) mean(y)) * n / (n - 1)] over
    [(var(x) * var(y)) ** 0.5]. *)
Definition window_corr (w : list (option Q * option Q)) : float64 :=
  match all_some (map pair_some w) with
  | None => NaN
  | Some ps =>
      if length ps <=? 1 then NaN
      else
        let xs := map fst ps in
        let ys := map snd ps in
        let mean_x_y := mean (map (fun p => (fst p * snd p)%Q) ps) in
        let numerator :=
          ((mean_x_y - mean xs * mean ys) * (Qlen ps / (Qlen ps - 1)))%Q in
        let denominator := sqrt lib (var xs * var ys) in
        fdiv numerator denominator
  end.

(** [col.rolling(n).corr(other)]. *)
Definition rolling_corr (n : nat) (col other : list (option Q)) : list float64 :=
  rolling n window_corr NaN (combine col other).

(** ** load_data *)

(** [pd.to_datetime] on one cell. *)
Definition to_datetime_cell (c : date_cell) : result Z :=
  match c with
  | Stamp t => Ok t
  | DateText s =>
      match parse_datetime lib s with
      | Some t => Ok t
      | None => Raise (ParseError s)
      end
  end.

(** [gold_silver['Date'] = pd.to_datetime(gold_silver['Date'])]. *)
Definition to_datetime_prices (rows : list (PriceRow date_cell))
  : result (list (PriceRow Z)) :=
  mapM (fun r =>
          t <- to_datetime_cell (p_Date r) ;;
          Ok {| p_Date := t;
                p_Gold_Price := p_Gold_Price r;
                p_Silver_Price := p_Silver_Price r;
                p_Gold_Returns := p_Gold_Returns r;
                p_Silver_Returns := p_Silver_Returns r |})
       rows.

(** [macro['Date'] = pd.to_datetime(macro['Date'])]. *)
Definition to_datetime_macro (rows : list (MacroRow date_cell))
  : result (list (MacroRow Z)) :=
  mapM (fun r =>
          t <- to_datetime_cell (m_Date r) ;;
          Ok {| m_Date := t;
                m_India_CPI := m_India_CPI r;
                m_DXY := m_DXY r;
                m_US10Y_Yield := m_US10Y_Yield r;
                m_GoogleTrends_Gold := m_GoogleTrends_Gold r;
                m_GoogleTrends_Silver := m_GoogleTrends_Silver r |})
       rows.

Definition join (p : PriceRow Z) (m : MacroRow Z) : Joined :=
  {| j_Date := p_Date p;
     j_Gold_Price := p_Gold_Price p;
     j_Silver_Price := p_Silver_Price p;
     j_Gold_Returns := p_Gold_Returns p;
     j_Silver_Returns := p_Silver_Returns p;
     j_India_CPI := m_India_CPI m;
     j_DXY := m_DXY m;
     j_US10Y_Yield := m_US10Y_Yield m;
     j_GoogleTrends_Gold := m_GoogleTrends_Gold m;
     j_GoogleTrends_Silver := m_GoogleTrends_Silver m |}.

(** [pd.merge(left, right, on='Date', how='inner')]: one row for every pair
    of a left row and a right row with the same date, in the order of the
    left rows. *)
Definition merge (left : list (PriceRow Z)) (right : list (MacroRow Z))
  : list Joined :=
  flat_map
    (fun p => map (join p) (filter (fun m => Z.eqb (p_Date p) (m_Date m)) right))
    left.

Fixpoint insert_by {A : Type} (key : A -> Z) (a : A) (l : list A) : list A :=
  match l with
  | [] => [a]
  | b :: l' =>
      if Z.leb (key a) (key b) then a :: l else b :: insert_by key a l'
  end.

(** [df.sort_values(key).reset_index(drop=True)].  Rows with the same key
    keep their order here; pandas' default sort leaves that order open. *)
Definition sort_values {A : Type} (key : A -> Z) (l : list A) : list A :=
  fold_right (insert_by key) [] l.

(** [pd.to_numeric(c, errors='coerce')] on one cell. *)
Definition to_numeric (c : cell) : option Q :=
  match c with
  | Num q => Some q
  | Text s => parse_numeric lib s
  | Null => None
  end.

(** [252**0.5]. *)
Definition annualization : Q := sqrt lib 252.

Definition scale (c : Q) (x : option Q) : option Q :=
  option_map (fun v => (v * c)%Q) x.

Definition load_data (gold_silver : list (PriceRow date_cell))
    (macro : list (MacroRow date_cell)) : result (list Row) :=
  gold_silver' <- to_datetime_prices gold_silver ;;
  macro' <- to_datetime_macro macro ;;
  let df := merge gold_silver' macro' in
  let df := sort_values j_Date df in
  (* rename Gold_Price, Silver_Price; numeric_cols *)
  let gold_returns := map (fun r => to_numeric (j_Gold_Returns r)) df in
  let silver_returns := map (fun r => to_numeric (j_Silver_Returns r)) df in
  let dxy := map (fun r => to_numeric (j_DXY r)) df in
  let us10y_yield := map (fun r => to_numeric (j_US10Y_Yield r)) df in
  (* derived columns *)
  let gold_volatility := map (scale annualization) (rolling_std 30 gold_returns) in
  let silver_volatility :=
    map (scale annualization) (rolling_std 30 silver_returns) in
  let gold_to_dxy_corr := rolling_corr 90 gold_returns dxy in
  let gold_to_yield_corr := rolling_corr 90 gold_returns us10y_yield in
  Ok (imap
        (fun k r =>
           {| Date := j_Date r;
              Gold_Close := j_Gold_Price r;
              Silver_Close := j_Silver_Price r;
              Gold_Returns := nth k gold_returns None;
              Silver_Returns := nth k silver_returns None;
              India_CPI := j_India_CPI r;
              DXY := nth k dxy None;
              US10Y_Yield := nth k us10y_yield None;
              GoogleTrends_Gold := j_GoogleTrends_Gold r;
              GoogleTrends_Silver := j_GoogleTrends_Silver r;
              Gold_Volatility := nth k gold_volatility None;
              Silver_Volatility := nth k silver_volatility None;
              Gold_to_DXY_Corr := nth k gold_to_dxy_corr NaN;
              Gold_to_Yield_Corr := nth k gold_to_yield_corr NaN;
              Gold_Silver_Ratio := float_div (j_Gold_Price r) (j_Silver_Price r) |})
        df).

End WithLibrary.

(** ** calculate_rolling_betas *)

Local Open Scope string_scope.
Local Open Scope list_scope.

(** A DataFrame held by columns: each column with its label. *)
Definition frame : Type := list (string * list cell).

(** The row kept by
    [df.dropna(subset=['Gold_Returns', 'India_CPI', 'DXY', 'US10Y_Yield',
    'GoogleTrends_Gold'])]. *)
Definition row_notna (r : Row) : bool :=
  negb (float_isnull (Gold_Returns r)
        || cell_isnull (India_CPI r)
        || float_isnull (DXY r)
        || float_isnull (US10Y_Yield r)
        || cell_isnull (GoogleTrends_Gold r)).

Definition dropna (df : list Row) : list Row := filter row_notna df.

(** [df[['India_CPI', 'DXY', 'US10Y_Yield', 'GoogleTrends_Gold']]]. *)
Definition exog_columns (df : list Row) : frame :=
  [ ("India_CPI", map India_CPI df);
    ("DXY", map (fun r => cell_of_float (DXY r)) df);
    ("US10Y_Yield", map (fun r => cell_of_float (US10Y_Yield r)) df);
    ("GoogleTrends_Gold", map GoogleTrends_Gold df) ].

(** [X.iloc[a:b]]. *)
Definition frame_iloc_slice (a b : nat) (X : frame) : frame :=
  map (fun nc => (fst nc, iloc_slice a b (snd nc))) X.

Definition frame_nrows (X : frame) : nat :=
  match X with
  | [] => 0
  | nc :: _ => length (snd nc)
  end.

(** A column statsmodels takes for a constant: one non-zero number
    throughout. *)
Definition is_const (col : list cell) : bool :=
  match col with
  | Num q :: rest =>
      negb (Qeq_bool q 0)
      && forallb (fun c => match c with Num q' => Qeq_bool q' q | _ => false end)
                 rest
  | _ => false
  end.

(** [sm.add_constant(X)] with its default [has_constant='skip']: a column
    [const] of ones in front, unless [X] already has a constant column. *)
Definition add_constant (X : frame) : frame :=
  if existsb (fun nc => is_const (snd nc)) X then X
  else ("const", repeat (Num 1) (frame_nrows X)) :: X.

(** [X.isnull().values.any()]. *)
Definition frame_isnull_any (X : frame) : bool :=
  existsb (fun nc => existsb cell_isnull (snd nc)) X.

(** [y.isnull().values.any()]. *)
Definition series_isnull_any (y : list (option Q)) : bool :=
  existsb float_isnull y.

(** [range(a, b)]. *)
Definition range (a b : nat) : list nat := seq a (b - a).

Definition regression_point (d : Z) (params : list (string * Q))
  : RegressionPoint :=
  {| rp_Date := d;
     Inflation_Beta := series_get "India_CPI" params;
     DXY_Beta := series_get "DXY" params;
     US10Y_Yield_Beta := series_get "US10Y_Yield" params;
     Sentiment_Beta := series_get "GoogleTrends_Gold" params |}.

Section RollingBetas.

Variable lib : Library.

(** The response and the predictors of the window that ends before row [i]. *)
Definition window_y (df : list Row) (window i : nat) : list (option Q) :=
  iloc_slice (i - window) i (map Gold_Returns df).

Definition window_X (df : list Row) (window i : nat) : frame :=
  add_constant (frame_iloc_slice (i - window) i (exog_columns df)).

(** One pass of the [for] loop, from the list [rolling_results] before it to
    the list after it. *)
Definition loop_body (df : list Row) (window : nat)
    (rolling_results : list RegressionPoint) (i : nat)
  : result (list RegressionPoint) :=
  let y := window_y df window i in
  let X := window_X df window i in
  if frame_isnull_any X || series_isnull_any y then
    Ok rolling_results (* continue *)
  else
    try_except
      (params <- OLS_fit lib y X ;;
       d <- iloc (map Date df) i ;;
       Ok (rolling_results ++ [regression_point d params]))
      (fun _ => Ok rolling_results (* continue *)).

Definition calculate_rolling_betas (df : list Row) (window : nat)
  : result (list RegressionPoint) :=
  let df := dropna df in
  foldM (loop_body df window) (range window (length df)) [].

End RollingBetas.

(** ** A library to run the model on

    Dates and numbers written in decimal digits, a square root rounded up to
    six decimals, and the least-squares fit by the normal equations, solved
    exactly by Cramer's rule. *)

Module Demo.

Fixpoint parse_digits (s : string) (acc : Z) : option Z :=
  match s with
  | EmptyString => Some acc
  | String c s' =>
      let n := Ascii.nat_of_ascii c in
      if ((48 <=? n) && (n <=? 57))%nat
      then parse_digits s' (10 * acc + Z.of_nat (n - 48))%Z
      else None
  end.

Definition parse_int (s : string) : option Z :=
  match s with
  | EmptyString => None
  | _ => parse_digits s 0%Z
  end.

Definition sqrt_up (q : Q) : Q :=
  if Qle_bool q 0 then 0%Q
  else ((Z.sqrt (Qnum q * 10 ^ 12 / Zpos (Qden q)) + 1)%Z # 10 ^ 6)%Q.

Definition cell_num (c : cell) : option Q :=
  match c with
  | Num q => Some q
  | _ => None
  end.

Definition dot (u v : list Q) : Q :=
  Qsum (map (fun p => (fst p * snd p)%Q) (combine u v)).

Fixpoint remove_nth {A : Type} (j : nat) (l : list A) : list A :=
  match l, j with
  | [], _ => []
  | _ :: l', 0 => l'
  | a :: l', S j' => a :: remove_nth j' l'
  end.

Fixpoint replace_nth {A : Type} (j : nat) (b : A) (l : list A) : list A :=
  match l, j with
  | [], _ => []
  | _ :: l', 0 => b :: l'
  | a :: l', S j' => a :: replace_nth j' b l'
  end.

(** Determinant of an [n] by [n] matrix, expanded along its first row. *)
Fixpoint det (n : nat) (M : list (list Q)) : Q :=
  match n, M with
  | 0, _ => 1%Q
  | S n', row :: rest =>
      Qsum (imap (fun j a =>
                    ((if Nat.even j then a else - a)
                     * det n' (map (remove_nth j) rest))%Q)
                 row)
  | S _, [] => 0%Q
  end.

(** The coefficients [b] with [X'X b = X'y]; the fit raises on data that
    are not numbers and on an empty sample.  Where [X'X] is singular
    statsmodels returns the solution of least norm; this one returns zeros
    (no statement depends on the values of the coefficients). *)
Definition exact_OLS (y : list (option Q)) (X : frame)
  : result (list (string * Q)) :=
  match all_some y, all_some (map (fun nc => all_some (map cell_num (snd nc))) X) with
  | Some ys, Some cols =>
      if (length ys =? 0)%nat then Raise (FitError "zero-size array")
      else
        let k := length cols in
        let XtX := map (fun u => map (dot u) cols) cols in
        let Xty := map (fun u => dot u ys) cols in
        let d := det k XtX in
        Ok (imap
              (fun j nc =>
                 (fst nc,
                  (det k (map (fun rb => replace_nth j (snd rb) (fst rb))
                              (combine XtX Xty)) / d)%Q))
              X)
  | _, _ => Raise (FitError "data cast to dtype of object")
  end.

Definition library : Library :=
  {| parse_datetime := parse_int;
     parse_numeric := fun s => option_map inject_Z (parse_int s);
     sqrt := sqrt_up;
     OLS_fit := exact_OLS |}.

End Demo.

Unset Implicit Arguments.

(** ** Vocabulary of the statements *)

(** The columns of a row that [calculate_rolling_betas] reads. *)
Definition regression_columns (r : Row)
  : Z * option Q * cell * option Q * option Q * cell :=
  (Date r, Gold_Returns r, India_CPI r, DXY r, US10Y_Yield r,
   GoogleTrends_Gold r).

(** Two calls in a row, on the same table and window. *)
Definition two_runs (lib : Library) (df : list Row) (window : nat)
  : result (list RegressionPoint * list RegressionPoint) :=
  first <- calculate_rolling_betas lib df window ;;
  second <- calculate_rolling_betas lib df window ;;
  Ok (first, second).

(** The dates of [left] that [right] has too. *)
Definition common_dates (left right : list Z) : list Z :=
  filter (fun d => existsb (Z.eqb d) right) left.

(** [pd.to_datetime] cannot parse the cell. *)
Definition unparseable (lib : Library) (c : date_cell) : Prop :=
  exists s, c = DateText s /\ parse_datetime lib s = None.

(** The row of a sheet and the same row with its date parsed. *)
Definition price_parsed (lib : Library) (raw : PriceRow date_cell)
    (r : PriceRow Z) : Prop :=
  to_datetime_cell lib (p_Date raw) = Ok (p_Date r)
  /\ p_Gold_Price r = p_Gold_Price raw
  /\ p_Silver_Price r = p_Silver_Price raw
  /\ p_Gold_Returns r = p_Gold_Returns raw
  /\ p_Silver_Returns r = p_Silver_Returns raw.

Definition macro_parsed (lib : Library) (raw : MacroRow date_cell)
    (r : MacroRow Z) : Prop :=
  to_datetime_cell lib (m_Date raw) = Ok (m_Date r)
  /\ m_India_CPI r = m_India_CPI raw
  /\ m_DXY r = m_DXY raw
  /\ m_US10Y_Yield r = m_US10Y_Yield raw
  /\ m_GoogleTrends_Gold r = m_GoogleTrends_Gold raw
  /\ m_GoogleTrends_Silver r = m_GoogleTrends_Silver raw.

(** The columns of the table [load_data] builds from the sorted join [J]:
    lines 23 to 38 of the source, column by column. *)
Definition table_columns (lib : Library) (J : list Joined) (df : list Row)
  : Prop :=
  map Date df = map j_Date J
  /\ map Gold_Close df = map j_Gold_Price J
  /\ map Silver_Close df = map j_Silver_Price J
  /\ map Gold_Returns df = map (fun r => to_numeric lib (j_Gold_Returns r)) J
  /\ map Silver_Returns df = map (fun r => to_numeric lib (j_Silver_Returns r)) J
  /\ map DXY df = map (fun r => to_numeric lib (j_DXY r)) J
  /\ map US10Y_Yield df = map (fun r => to_numeric lib (j_US10Y_Yield r)) J
  /\ map India_CPI df = map j_India_CPI J
  /\ map GoogleTrends_Gold df = map j_GoogleTrends_Gold J
  /\ map GoogleTrends_Silver df = map j_GoogleTrends_Silver J
  /\ map Gold_Volatility df
     = map (scale (annualization lib)) (rolling_std lib 30 (map Gold_Returns df))
  /\ map Silver_Volatility df
     = map (scale (annualization lib))
           (rolling_std lib 30 (map Silver_Returns df))
  /\ map Gold_to_DXY_Corr df
     = rolling_corr lib 90 (map Gold_Returns df) (map DXY df)
  /\ map Gold_to_Yield_Corr df
     = rolling_corr lib 90 (map Gold_Returns df) (map US10Y_Yield df)
  /\ map Gold_Silver_Ratio df
     = map (fun r => float_div (Gold_Close r) (Silver_Close r)) df.

(** Row [r] of the merged table comes from row [p] of the price sheet and
    row [m] of the macro sheet: both carry its date, the four columns of
    [numeric_cols] went through [pd.to_numeric], the others are as they were
    in the sheets. *)
Definition row_of_sheets (lib : Library) (p : PriceRow date_cell)
    (m : MacroRow date_cell) (r : Row) : Prop :=
  to_datetime_cell lib (p_Date p) = Ok (Date r)
  /\ to_datetime_cell lib (m_Date m) = Ok (Date r)
  /\ Gold_Close r = p_Gold_Price p
  /\ Silver_Close r = p_Silver_Price p
  /\ Gold_Returns r = to_numeric lib (p_Gold_Returns p)
  /\ Silver_Returns r = to_numeric lib (p_Silver_Returns p)
  /\ DXY r = to_numeric lib (m_DXY m)
  /\ US10Y_Yield r = to_numeric lib (m_US10Y_Yield m)
  /\ India_CPI r = m_India_CPI m
  /\ GoogleTrends_Gold r = m_GoogleTrends_Gold m
  /\ GoogleTrends_Silver r = m_GoogleTrends_Silver m.

(** All the values of a window are the same. *)
Definition constant (xs : list Q) : Prop :=
  forall a b, In a xs -> In b xs -> a == b.

Fixpoint increasingb (l : list Z) : bool :=
  match l with
  | [] => true
  | a :: l' =>
      match l' with
      | [] => true
      | b :: _ => Z.ltb a b && increasingb l'
      end
  end.

(** The null check of pass [i]:
    [X.isnull().values.any() or y.isnull().values.any()]. *)
Definition window_has_null (df : list Row) (window i : nat) : bool :=
  frame_isnull_any (window_X df window i)
  || series_isnull_any (window_y df window i).

(** The fit of pass [i] raises. *)
Definition fit_raises (lib : Library) (df : list Row) (window i : nat) : bool :=
  match OLS_fit lib (window_y df window i) (window_X df window i) with
  | Ok _ => false
  | Raise _ => true
  end.

(** Pass [i] is skipped: it leaves by one of its two [continue]. *)
Definition skipped (lib : Library) (df : list Row) (window i : nat) : bool :=
  window_has_null df window i || fit_raises lib df window i.

(** What pass [i] appends to [rolling_results]. *)
Definition emitted (lib : Library) (df : list Row) (window i : nat)
  : list RegressionPoint :=
  match loop_body lib df window [] i with
  | Ok l => l
  | Raise _ => []
  end.

Definition cell_isnum (c : cell) : bool :=
  match c with Num _ => true | _ => false end.

Definition frame_numeric (X : frame) : bool :=
  forallb (fun nc => forallb cell_isnum (snd nc)) X.

(** Each of the five fields of the regression holds a number. *)
Definition row_numeric (r : Row) : bool :=
  negb (float_isnull (Gold_Returns r))
  && cell_isnum (India_CPI r)
  && negb (float_isnull (DXY r))
  && negb (float_isnull (US10Y_Yield r))
  && cell_isnum (GoogleTrends_Gold r).

(** What the model asks of statsmodels for a fit to go through: on a sample
    that is not empty, whose response and predictors are all numbers, with
    columns as long as the response, [OLS(y, X).fit()] returns, and [params]
    is labelled by the columns of [X]. *)
Definition OLS_fits_numeric_data (lib : Library) : Prop :=
  forall (y : list (option Q)) (X : frame),
    y <> [] ->
    series_isnull_any y = false ->
    frame_numeric X = true ->
    Forall (fun nc => length (snd nc) = length y) X ->
    exists params, OLS_fit lib y X = Ok params /\ map fst params = map fst X.

(** The four coefficients of a point are there. *)
Definition four_coefficients (p : RegressionPoint) : Prop :=
  Inflation_Beta p <> None /\ DXY_Beta p <> None
  /\ US10Y_Yield_Beta p <> None /\ Sentiment_Beta p <> None.

(** ** Example tables *)

Module Examples.

Definition qn (n : nat) : Q := inject_Z (Z.of_nat n).

(** Row [k] of a table without nulls. *)
Definition complete_row (k : nat) : Row :=
  {| Date := Z.of_nat k;
     Gold_Close := Some (qn (1900 + k));
     Silver_Close := Some (qn (23 + k mod 4));
     Gold_Returns := Some (qn (k * k mod 7));
     Silver_Returns := Some (qn (k mod 6));
     India_CPI := Num (qn (k mod 5));
     DXY := Some (qn (k * 3 mod 11));
     US10Y_Yield := Some (qn (k * k mod 13));
     GoogleTrends_Gold := Num (qn (k mod 3));
     GoogleTrends_Silver := Num (qn (k mod 2));
     Gold_Volatility := None;
     Silver_Volatility := None;
     Gold_to_DXY_Corr := NaN;
     Gold_to_Yield_Corr := NaN;
     Gold_Silver_Ratio := Fin (qn (1900 + k) / qn (23 + k mod 4)) |}.

Definition df300 : list Row := map complete_row (seq 0 300).

(** Six rows, no nulls, a text in the [India_CPI] cell of row 1. *)
Definition with_text (k : nat) : Row :=
  let r := complete_row k in
  {| Date := Date r;
     Gold_Close := Gold_Close r;
     Silver_Close := Silver_Close r;
     Gold_Returns := Gold_Returns r;
     Silver_Returns := Silver_Returns r;
     India_CPI := if (k =? 1)%nat then Text "n/a" else India_CPI r;
     DXY := DXY r;
     US10Y_Yield := US10Y_Yield r;
     GoogleTrends_Gold := GoogleTrends_Gold r;
     GoogleTrends_Silver := GoogleTrends_Silver r;
     Gold_Volatility := Gold_Volatility r;
     Silver_Volatility := Silver_Volatility r;
     Gold_to_DXY_Corr := Gold_to_DXY_Corr r;
     Gold_to_Yield_Corr := Gold_to_Yield_Corr r;
     Gold_Silver_Ratio := Gold_Silver_Ratio r |}.

Definition df_text : list Row := map with_text (seq 0 6).

(** The table [df_text] with other derived columns. *)
Definition df_text' : list Row :=
  map (fun r =>
         {| Date := Date r;
            Gold_Close := None;
            Silver_Close := Silver_Close r;
            Gold_Returns := Gold_Returns r;
            Silver_Returns := None;
            India_CPI := India_CPI r;
            DXY := DXY r;
            US10Y_Yield := US10Y_Yield r;
            GoogleTrends_Gold := GoogleTrends_Gold r;
            GoogleTrends_Silver := Null;
            Gold_Volatility := Some 1%Q;
            Silver_Volatility := Silver_Volatility r;
            Gold_to_DXY_Corr := Fin 0;
            Gold_to_Yield_Corr := Gold_to_Yield_Corr r;
            Gold_Silver_Ratio := NaN |})
      df_text.

(** Six rows with an empty [DXY] cell in row 1. *)
Definition with_null (k : nat) : Row :=
  let r := complete_row k in
  {| Date := Date r;
     Gold_Close := Gold_Close r;
     Silver_Close := Silver_Close r;
     Gold_Returns := Gold_Returns r;
     Silver_Returns := Silver_Returns r;
     India_CPI := India_CPI r;
     DXY := if (k =? 1)%nat then None else DXY r;
     US10Y_Yield := US10Y_Yield r;
     GoogleTrends_Gold := GoogleTrends_Gold r;
     GoogleTrends_Silver := GoogleTrends_Silver r;
     Gold_Volatility := Gold_Volatility r;
     Silver_Volatility := Silver_Volatility r;
     Gold_to_DXY_Corr := Gold_to_DXY_Corr r;
     Gold_to_Yield_Corr := Gold_to_Yield_Corr r;
     Gold_Silver_Ratio := Gold_Silver_Ratio r |}.

Definition df_null : list Row := map with_null (seq 0 6).

(** Row [k] of each sheet, dated [k]. *)
Definition price_row (k : nat) : PriceRow date_cell :=
  {| p_Date := Stamp (Z.of_nat k);
     p_Gold_Price := Some (qn (1900 + k));
     p_Silver_Price := Some (qn (23 + k mod 4));
     p_Gold_Returns := Num (qn (k * k mod 7));
     p_Silver_Returns := Num (qn (k mod 6)) |}.

Definition macro_row (k : nat) : MacroRow date_cell :=
  {| m_Date := Stamp (Z.of_nat k);
     m_India_CPI := Num (qn (k mod 5));
     m_DXY := Num (qn (k * 3 mod 11));
     m_US10Y_Yield := Num (qn (k * k mod 13));
     m_GoogleTrends_Gold := Num (qn (k mod 3));
     m_GoogleTrends_Silver := Num (qn (k mod 2)) |}.

(** Two small sheets, not in date order, with dates written as texts, a
    day missing on each side, an empty price cell and cells that hold a text
    where a number is expected. *)
Definition small_prices : list (PriceRow date_cell) :=
  [ {| p_Date := DateText "20250103";
       p_Gold_Price := Some (qn 2650);
       p_Silver_Price := Some (qn 30);
       p_Gold_Returns := Num (qn 2);
       p_Silver_Returns := Text "n/a" |};
    {| p_Date := Stamp 20250101;
       p_Gold_Price := Some (qn 2600);
       p_Silver_Price := None;
       p_Gold_Returns := Text "#DIV/0!";
       p_Silver_Returns := Num (qn 1) |};
    {| p_Date := DateText "20250102";
       p_Gold_Price := Some (qn 2625);
       p_Silver_Price := Some (qn 0);
       p_Gold_Returns := Text "3";
       p_Silver_Returns := Null |} ].

Definition small_macro : list (MacroRow date_cell) :=
  [ {| m_Date := Stamp 20250103;
       m_India_CPI := Text "n/a";
       m_DXY := Text "n/a";
       m_US10Y_Yield := Num (qn 4);
       m_GoogleTrends_Gold := Num (qn 70);
       m_GoogleTrends_Silver := Text "<1" |};
    {| m_Date := DateText "20250105";
       m_India_CPI := Num (qn 190);
       m_DXY := Num (qn 108);
       m_US10Y_Yield := Num (qn 4);
       m_GoogleTrends_Gold := Num (qn 71);
       m_GoogleTrends_Silver := Num (qn 12) |};
    {| m_Date := DateText "20250101";
       m_India_CPI := Num (qn 189);
       m_DXY := Num (qn 109);
       m_US10Y_Yield := Text "4";
       m_GoogleTrends_Gold := Text "n/a";
       m_GoogleTrends_Silver := Num (qn 11) |} ].

(** The macro sheet with a date that does not parse. *)
Definition bad_macro : list (MacroRow date_cell) :=
  small_macro
  ++ [ {| m_Date := DateText "Q1 2025";
          m_India_CPI := Num (qn 190);
          m_DXY := Num (qn 108);
          m_US10Y_Yield := Num (qn 4);
          m_GoogleTrends_Gold := Num (qn 71);
          m_GoogleTrends_Silver := Num (qn 12) |} ].

(** The merged table of the two small sheets, and its first row. *)
Definition small_table : list Row :=
  Eval vm_compute in
    match load_data Demo.library small_prices small_macro with
    | Ok df => df
    | Raise _ => []
    end.

Definition small_row0 : Row := Eval vm_compute in hd (complete_row 0) small_table.

Definition small_row1 : Row :=
  Eval vm_compute in nth 1 small_table (complete_row 0).

(** Ninety days on which the gold return is zero throughout. *)
Definition flat_prices : list (PriceRow date_cell) :=
  map (fun k =>
         {| p_Date := Stamp (Z.of_nat k);
            p_Gold_Price := Some (qn 1900);
            p_Silver_Price := Some (qn 23);
            p_Gold_Returns := Num 0;
            p_Silver_Returns := Num (qn (k mod 6)) |})
      (seq 0 90).

Definition macro_90 : list (MacroRow date_cell) := map macro_row (seq 0 90).

(** A hundred days without nulls: the merged table and its row 90. *)
Definition table_100 : list Row :=
  Eval vm_compute in
    match load_data Demo.library (map price_row (seq 0 100))
                    (map macro_row (seq 0 100)) with
    | Ok df => df
    | Raise _ => []
    end.

Definition table_100_row89 : Row :=
  Eval vm_compute in nth 89 table_100 (complete_row 0).

(** 181 days of macro data; the price sheet has two rows for day 180. *)
Definition macro_181 : list (MacroRow date_cell) := map macro_row (seq 0 181).

Definition gold_silver_dup : list (PriceRow date_cell) :=
  map price_row (seq 0 181)
  ++ [ {| p_Date := Stamp 180;
          p_Gold_Price := Some (qn 2081);
          p_Silver_Price := Some (qn 24);
          p_Gold_Returns := Num (qn 3);
          p_Silver_Returns := Num (qn 1) |} ].

End Examples.

(** ** The loop of calculate_rolling_betas *)

Section LoopFacts.

Variable lib : Library.

Lemma loop_body_emitted (df : list Row) (window : nat)
    (acc : list RegressionPoint) (i : nat) :
  loop_body lib df window acc i = Ok (acc ++ emitted lib df window i).
Proof.
  unfold emitted, loop_body.
  destruct (frame_isnull_any _ || series_isnull_any _).
  - now rewrite app_nil_r.
  - destruct (OLS_fit lib _ _) as [params | e]; simpl.
    + destruct (iloc (map Date df) i); simpl.
      * reflexivity.
      * now rewrite app_nil_r.
    + now rewrite app_nil_r.
Qed.

Lemma foldM_loop_body (df : list Row) (window : nat) (idxs : list nat) :
  forall acc,
    foldM (loop_body lib df window) idxs acc
    = Ok (acc ++ flat_map (emitted lib df window) idxs).
Proof.
  induction idxs as [| i idxs IH]; intros acc; simpl.
  - now rewrite app_nil_r.
  - rewrite loop_body_emitted; simpl.
    rewrite IH, <- app_assoc.
    reflexivity.
Qed.

Lemma calculate_rolling_betas_flat_map (df : list Row) (window : nat) :
  calculate_rolling_betas lib df window
  = Ok (flat_map (emitted lib (dropna df) window)
                 (range window (length (dropna df)))).
Proof.
  unfold calculate_rolling_betas.
  now rewrite foldM_loop_body.
Qed.

Lemma emitted_skipped (df : list Row) (window i : nat) :
  skipped lib df window i = true -> emitted lib df window i = [].
Proof.
  unfold skipped, window_has_null, fit_raises, emitted, loop_body.
  destruct (frame_isnull_any _ || series_isnull_any _); simpl.
  - reflexivity.
  - destruct (OLS_fit lib _ _); simpl.
    + discriminate.
    + reflexivity.
Qed.

Lemma emitted_not_skipped (df : list Row) (window i : nat) (r : Row) :
  skipped lib df window i = false ->
  nth_error df i = Some r ->
  exists params,
    OLS_fit lib (window_y df window i) (window_X df window i) = Ok params
    /\ emitted lib df window i = [regression_point (Date r) params].
Proof.
  unfold skipped, window_has_null, fit_raises, emitted, loop_body.
  intros Hs Hr.
  destruct (frame_isnull_any _ || series_isnull_any _); simpl in *.
  - discriminate.
  - destruct (OLS_fit lib _ _) as [params | e]; simpl in *.
    + exists params; split; [reflexivity |].
      unfold iloc.
      rewrite nth_error_map, Hr; simpl.
      reflexivity.
    + discriminate.
Qed.

Lemma emitted_length (df : list Row) (window i : nat) :
  length (emitted lib df window i) <= 1.
Proof.
  unfold emitted, loop_body.
  destruct (frame_isnull_any _ || series_isnull_any _); simpl; [lia |].
  destruct (OLS_fit lib _ _); simpl; [| lia].
  destruct (iloc _ _); simpl; lia.
Qed.

Lemma emitted_date (df : list Row) (window i : nat) (p : RegressionPoint) :
  In p (emitted lib df window i) ->
  exists r, nth_error df i = Some r /\ rp_Date p = Date r.
Proof.
  unfold emitted, loop_body.
  destruct (frame_isnull_any _ || series_isnull_any _); simpl; [tauto |].
  destruct (OLS_fit lib _ _) as [params | e]; simpl; [| tauto].
  unfold iloc.
  rewrite nth_error_map.
  destruct (nth_error df i) as [r |]; simpl; [| tauto].
  intros [<- | []].
  exists r; split; reflexivity.
Qed.

End LoopFacts.

(** ** Slices and null checks *)

Lemma existsb_false_Forall {A : Type} (f : A -> bool) (l : list A) :
  existsb f l = false <-> Forall (fun x => f x = false) l.
Proof.
  induction l as [| a l IH]; simpl.
  - split; [constructor | reflexivity].
  - rewrite orb_false_iff, IH.
    split.
    + intros [Ha Hl]; now constructor.
    + intros H; inversion H; subst; now split.
Qed.

Lemma iloc_slice_length {A : Type} (window i : nat) (l : list A) :
  window <= i -> i <= length l ->
  length (iloc_slice (i - window) i l) = window.
Proof.
  intros Hw Hi.
  unfold iloc_slice.
  rewrite length_firstn, length_skipn.
  lia.
Qed.

Lemma iloc_slice_In {A : Type} (a b : nat) (l : list A) (x : A) :
  In x (iloc_slice a b l) -> In x l.
Proof.
  unfold iloc_slice.
  intros H.
  rewrite <- (firstn_skipn a l).
  apply in_or_app; right.
  rewrite <- (firstn_skipn (b - a) (skipn a l)).
  apply in_or_app; now left.
Qed.

Lemma iloc_slice_Forall {A : Type} (P : A -> Prop) (a b : nat) (l : list A) :
  Forall P l -> Forall P (iloc_slice a b l).
Proof.
  rewrite !Forall_forall.
  intros H x Hx.
  apply H.
  now apply iloc_slice_In in Hx.
Qed.

Lemma iloc_slice_map {A B : Type} (f : A -> B) (a b : nat) (l : list A) :
  iloc_slice a b (map f l) = map f (iloc_slice a b l).
Proof.
  unfold iloc_slice.
  now rewrite skipn_map, firstn_map.
Qed.

(** A property of every column of the four predictors carries over to the
    window once the column of ones has it too. *)
Lemma add_constant_Forall (P : string * list cell -> Prop) (X : frame) :
  Forall P X ->
  P ("const", repeat (Num 1) (frame_nrows X)) ->
  Forall P (add_constant X).
Proof.
  intros HX Hc.
  unfold add_constant.
  destruct (existsb _ X).
  - exact HX.
  - now constructor.
Qed.

Lemma window_X_Forall (P : list cell -> Prop) (df : list Row) (window i : nat) :
  (forall f : Row -> cell,
      In f [India_CPI; (fun r => cell_of_float (DXY r));
            (fun r => cell_of_float (US10Y_Yield r)); GoogleTrends_Gold] ->
      P (iloc_slice (i - window) i (map f df))) ->
  P (repeat (Num 1) (length (iloc_slice (i - window) i (map India_CPI df)))) ->
  Forall (fun nc => P (snd nc)) (window_X df window i).
Proof.
  intros Hcols Hconst.
  unfold window_X.
  apply add_constant_Forall.
  - unfold exog_columns; simpl.
    repeat constructor; simpl; apply Hcols; simpl; tauto.
  - exact Hconst.
Qed.

Lemma window_X_names (df : list Row) (window i : nat) (name : string) :
  In name ["India_CPI"; "DXY"; "US10Y_Yield"; "GoogleTrends_Gold"] ->
  In name (map fst (window_X df window i)).
Proof.
  intros H.
  unfold window_X, add_constant.
  destruct (existsb _ _); simpl in *; tauto.
Qed.

Lemma row_notna_fields (r : Row) :
  row_notna r = true ->
  float_isnull (Gold_Returns r) = false
  /\ cell_isnull (India_CPI r) = false
  /\ float_isnull (DXY r) = false
  /\ float_isnull (US10Y_Yield r) = false
  /\ cell_isnull (GoogleTrends_Gold r) = false.
Proof.
  unfold row_notna.
  rewrite negb_true_iff, !orb_false_iff.
  tauto.
Qed.

Lemma dropna_notna (df : list Row) :
  Forall (fun r => row_notna r = true) (dropna df).
Proof.
  apply Forall_forall.
  intros r Hr.
  now apply filter_In in Hr.
Qed.

Lemma cell_of_float_isnull (x : option Q) :
  cell_isnull (cell_of_float x) = float_isnull x.
Proof. now destruct x. Qed.

Lemma repeat_one_notnull (n : nat) :
  existsb cell_isnull (repeat (Num 1) n) = false.
Proof. induction n; simpl; auto. Qed.

(** On rows that passed [dropna], no window holds a null. *)
Lemma window_has_null_notna (df : list Row) (window i : nat) :
  Forall (fun r => row_notna r = true) df ->
  window_has_null df window i = false.
Proof.
  intros Hdf.
  unfold window_has_null.
  apply orb_false_iff; split.
  - unfold frame_isnull_any.
    apply existsb_false_Forall.
    apply (window_X_Forall (fun col => existsb cell_isnull col = false)).
    + intros f Hf.
      apply existsb_false_Forall, iloc_slice_Forall, Forall_map.
      eapply Forall_impl; [| exact Hdf].
      intros r Hr.
      apply row_notna_fields in Hr.
      simpl in Hf.
      destruct Hf as [<- | [<- | [<- | [<- | []]]]];
        rewrite ?cell_of_float_isnull; tauto.
    + apply repeat_one_notnull.
  - unfold series_isnull_any, window_y.
    apply existsb_false_Forall, iloc_slice_Forall, Forall_map.
    eapply Forall_impl; [| exact Hdf].
    intros r Hr.
    now apply row_notna_fields in Hr.
Qed.

Lemma series_get_In {A : Type} (name : string) (s : list (string * A)) :
  In name (map fst s) -> series_get name s <> None.
Proof.
  induction s as [| [n a] s IH]; simpl.
  - tauto.
  - intros [-> | H].
    + now rewrite String.eqb_refl.
    + destruct (String.eqb n name); [discriminate | auto].
Qed.

Lemma flat_map_length_le {A B : Type} (f : A -> list B) (l : list A) :
  (forall a, length (f a) <= 1) ->
  length (flat_map f l) <= length l.
Proof.
  intros Hf.
  induction l as [| a l IH]; simpl.
  - lia.
  - rewrite length_app.
    specialize (Hf a).
    lia.
Qed.

Lemma flat_map_length_lt {A B : Type} (f : A -> list B) (l : list A) (a : A) :
  (forall a, length (f a) <= 1) ->
  In a l -> f a = [] ->
  length (flat_map f l) < length l.
Proof.
  intros Hf.
  induction l as [| b l IH]; simpl.
  - tauto.
  - intros [-> | Hin] Ha; rewrite length_app.
    + rewrite Ha; simpl.
      pose proof (flat_map_length_le f l Hf).
      lia.
    + specialize (IH Hin Ha).
      specialize (Hf b).
      lia.
Qed.

Lemma flat_map_length_eq {A B : Type} (f : A -> list B) (l : list A) :
  (forall a, In a l -> length (f a) = 1) ->
  length (flat_map f l) = length l.
Proof.
  induction l as [| a l IH]; simpl; intros Hf.
  - reflexivity.
  - rewrite length_app, IH, (Hf a); auto.
Qed.

Lemma in_range (a b i : nat) : In i (range a b) <-> a <= i < b.
Proof.
  unfold range.
  rewrite in_seq.
  lia.
Qed.

Lemma range_split (a b i : nat) :
  a <= i < b -> range a b = range a i ++ i :: range (S i) b.
Proof.
  intros H.
  unfold range.
  replace (b - a) with ((i - a) + S (b - S i)) by lia.
  rewrite seq_app.
  simpl.
  replace (a + (i - a)) with i by lia.
  reflexivity.
Qed.

(** ** The demonstration library fits numeric data *)

Lemma all_some_Forall {A : Type} (l : list (option A)) :
  Forall (fun x => x <> None) l ->
  exists l', all_some l = Some l' /\ length l' = length l.
Proof.
  induction 1 as [| x l Hx Hl [l' [IH Hlen]]]; simpl.
  - exists []; auto.
  - destruct x as [a |]; [| congruence].
    rewrite IH.
    exists (a :: l'); simpl; auto.
Qed.

Lemma map_fst_imap_from {A B : Type} (g : nat -> string * A -> B)
    (X : list (string * A)) (start : nat) :
  map fst (imap_from start (fun j nc => (fst nc, g j nc)) X) = map fst X.
Proof.
  revert start.
  induction X as [| nc X IH]; intros start; simpl.
  - reflexivity.
  - now rewrite IH.
Qed.

Lemma exact_OLS_fits_numeric_data : OLS_fits_numeric_data Demo.library.
Proof.
  intros y X Hy Hnull Hnum Hlen.
  simpl.
  unfold Demo.exact_OLS.
  destruct (all_some_Forall y) as [ys [-> Hys]].
  { apply existsb_false_Forall in Hnull.
    eapply Forall_impl; [| exact Hnull].
    intros [q |]; simpl; congruence. }
  destruct (all_some_Forall
              (map (fun nc => all_some (map Demo.cell_num (snd nc))) X))
    as [cols [-> Hcols]].
  { apply Forall_map, Forall_forall.
    intros nc Hnc.
    unfold frame_numeric in Hnum.
    rewrite forallb_forall in Hnum.
    specialize (Hnum nc Hnc).
    rewrite forallb_forall in Hnum.
    destruct (all_some_Forall (map Demo.cell_num (snd nc))) as [qs [-> _]].
    - apply Forall_map, Forall_forall.
      intros c Hc.
      specialize (Hnum c Hc).
      destruct c; simpl in *; congruence.
    - discriminate. }
  destruct ys as [| q ys].
  - destruct y; [congruence | discriminate].
  - simpl.
    eexists; split; [reflexivity |].
    apply map_fst_imap_from.
Qed.

(** ** Properties of calculate_rolling_betas *)

Lemma row_numeric_notna (r : Row) : row_numeric r = true -> row_notna r = true.
Proof.
  unfold row_numeric, row_notna.
  rewrite !andb_true_iff, !negb_true_iff, !orb_false_iff.
  intros [[[[H1 H2] H3] H4] H5].
  destruct (India_CPI r), (GoogleTrends_Gold r); simpl in *; try discriminate;
    tauto.
Qed.

Lemma dropna_numeric (df : list Row) :
  forallb row_numeric df = true -> dropna df = df.
Proof.
  intros H.
  unfold dropna.
  rewrite forallb_forall in H.
  induction df as [| r df IH]; simpl.
  - reflexivity.
  - rewrite (row_numeric_notna r) by (apply H; now left).
    rewrite IH; [reflexivity |].
    intros x Hx; apply H; now right.
Qed.

Lemma repeat_one_numeric (n : nat) : forallb cell_isnum (repeat (Num 1) n) = true.
Proof. induction n; simpl; auto. Qed.

(** On a table of numbers a library that fits numeric data skips no pass. *)
Lemma numeric_rows_not_skipped (lib : Library) (df : list Row) (window i : nat) :
  OLS_fits_numeric_data lib ->
  forallb row_numeric df = true ->
  0 < window -> window <= i < length df ->
  exists params,
    OLS_fit lib (window_y df window i) (window_X df window i) = Ok params
    /\ map fst params = map fst (window_X df window i).
Proof.
  intros Hlib Hnum Hw Hi.
  assert (Hrows : Forall (fun r => row_numeric r = true) df)
    by (apply Forall_forall, forallb_forall, Hnum).
  assert (Hylen : length (window_y df window i) = window).
  { unfold window_y.
    apply iloc_slice_length; rewrite ?length_map; lia. }
  apply Hlib.
  - intros E; rewrite E in Hylen; simpl in Hylen; lia.
  - assert (Hn : window_has_null df window i = false).
    { apply window_has_null_notna.
      eapply Forall_impl; [| exact Hrows].
      apply row_numeric_notna. }
    unfold window_has_null in Hn.
    now apply orb_false_iff in Hn.
  - unfold frame_numeric.
    apply forallb_forall, Forall_forall.
    apply (window_X_Forall (fun col => forallb cell_isnum col = true)).
    + intros f Hf.
      apply forallb_forall, Forall_forall, iloc_slice_Forall, Forall_map.
      eapply Forall_impl; [| exact Hrows].
      intros r Hr.
      unfold row_numeric in Hr.
      rewrite !andb_true_iff, !negb_true_iff in Hr.
      destruct Hr as [[[[H1 H2] H3] H4] H5].
      simpl in Hf.
      destruct Hf as [<- | [<- | [<- | [<- | []]]]]; auto.
      * destruct (DXY r); [reflexivity | discriminate].
      * destruct (US10Y_Yield r); [reflexivity | discriminate].
    + apply repeat_one_numeric.
  - rewrite Hylen.
    apply (window_X_Forall (fun col => length col = window)).
    + intros f _.
      apply iloc_slice_length; rewrite ?length_map; lia.
    + rewrite repeat_length.
      apply iloc_slice_length; rewrite ?length_map; lia.
Qed.

Lemma regression_point_coefficients (d : Z) (params : list (string * Q))
    (df : list Row) (window i : nat) :
  map fst params = map fst (window_X df window i) ->
  four_coefficients (regression_point d params).
Proof.
  intros Hnames.
  unfold four_coefficients, regression_point; simpl.
  repeat split; apply series_get_In; rewrite Hnames; apply window_X_names;
    simpl; tauto.
Qed.

Lemma numeric_rows_all_fit (lib : Library) (df : list Row) (window : nat) :
  OLS_fits_numeric_data lib ->
  forallb row_numeric df = true ->
  0 < window ->
  exists out,
    calculate_rolling_betas lib df window = Ok out
    /\ length out = length df - window
    /\ Forall four_coefficients out.
Proof.
  intros Hlib Hnum Hw.
  rewrite calculate_rolling_betas_flat_map, (dropna_numeric df Hnum).
  eexists; split; [reflexivity |].
  assert (Hpass : forall i, In i (range window (length df)) ->
            exists r params,
              emitted lib df window i = [regression_point (Date r) params]
              /\ map fst params = map fst (window_X df window i)).
  { intros i Hi.
    apply in_range in Hi.
    destruct (numeric_rows_not_skipped lib df window i Hlib Hnum Hw Hi)
      as [params [Hfit Hnames]].
    destruct (nth_error df i) as [r |] eqn:Hr.
    2:{ apply nth_error_None in Hr; lia. }
    destruct (emitted_not_skipped lib df window i r) as [params' [Hfit' He]].
    - unfold skipped, fit_raises.
      rewrite Hfit, orb_false_r.
      apply window_has_null_notna.
      apply Forall_forall; intros x Hx.
      apply row_numeric_notna.
      rewrite forallb_forall in Hnum; auto.
    - exact Hr.
    - exists r, params'.
      split; [exact He | congruence]. }
  split.
  - rewrite flat_map_length_eq.
    + unfold range; now rewrite length_seq.
    + intros i Hi.
      destruct (Hpass i Hi) as [r [params [-> _]]].
      reflexivity.
  - apply Forall_flat_map, Forall_forall.
    intros i Hi.
    destruct (Hpass i Hi) as [r [params [-> Hnames]]].
    constructor; [| constructor].
    eapply regression_point_coefficients; eassumption.
Qed.



Lemma foldM_app {A S : Type} (f : S -> A -> result S) (l1 l2 : list A) (s : S) :
  foldM f (l1 ++ l2) s = (s' <- foldM f l1 s ;; foldM f l2 s').
Proof.
  revert s.
  induction l1 as [| a l1 IH]; intros s; simpl.
  - reflexivity.
  - destruct (f s a) as [s' | e]; simpl; auto.
Qed.

(** C2.  A pass whose window holds a null, or whose fit raises, is skipped in
    silence: it leaves [rolling_results] as it found it, so no point is
    emitted for its index; the loop goes on with the next index from there;
    and the call returns a table (no exception reaches the caller). *)
Theorem skipped_window_is_silent :
  forall (lib : Library) (rows : list Row) (window i : nat),
    (window_has_null rows window i = true
     \/ exists e,
         OLS_fit lib (window_y rows window i) (window_X rows window i) = Raise e) ->
    (forall rolling_results,
        loop_body lib rows window rolling_results i = Ok rolling_results)
    /\ (forall before after rolling_results,
           foldM (loop_body lib rows window) (before ++ i :: after)
                 rolling_results
           = (state <- foldM (loop_body lib rows window) before rolling_results ;;
              foldM (loop_body lib rows window) after state))
    /\ (forall df,
           rows = dropna df ->
           window <= i < length rows ->
           calculate_rolling_betas lib df window
           = (state <- foldM (loop_body lib rows window) (range window i) [] ;;
              foldM (loop_body lib rows window) (range (S i) (length rows)) state)
           /\ exists out, calculate_rolling_betas lib df window = Ok out).
Proof.
  intros lib rows window i Hskip.
  assert (Hs : skipped lib rows window i = true).
  { unfold skipped, fit_raises.
    destruct Hskip as [-> | [e ->]]; [reflexivity | apply orb_true_r]. }
  assert (Hbody : forall acc, loop_body lib rows window acc i = Ok acc).
  { intros acc.
    now rewrite loop_body_emitted, (emitted_skipped lib rows window i Hs),
      app_nil_r. }
  assert (Hloop : forall before after acc,
             foldM (loop_body lib rows window) (before ++ i :: after) acc
             = (state <- foldM (loop_body lib rows window) before acc ;;
                foldM (loop_body lib rows window) after state)).
  { intros before after acc.
    rewrite foldM_app.
    destruct (foldM (loop_body lib rows window) before acc) as [state | e];
      simpl; [now rewrite Hbody | reflexivity]. }
  split; [exact Hbody | split; [exact Hloop |]].
  intros df -> Hi.
  split.
  - unfold calculate_rolling_betas.
    rewrite (range_split window (length (dropna df)) i Hi).
    apply Hloop.
  - rewrite calculate_rolling_betas_flat_map.
    eexists; reflexivity.
Qed.

Lemma skipped_window_is_silent_witness :
  (forall rolling_results,
      loop_body Demo.library Examples.df_null 2 rolling_results 3
      = Ok rolling_results)
  /\ exists out, calculate_rolling_betas Demo.library Examples.df_text 2 = Ok out.
Proof.
  split.
  - apply (skipped_window_is_silent Demo.library Examples.df_null 2 3).
    left.
    vm_compute; reflexivity.
  - destruct (skipped_window_is_silent Demo.library (dropna Examples.df_text) 2 3)
      as [_ [_ Hcall]].
    + right.
      eexists.
      vm_compute; reflexivity.
    + apply (Hcall Examples.df_text eq_refl).
      vm_compute; lia.
Defined.

(** C9.  After the [dropna] over the five columns the null check of a pass
    never holds, whatever the table, the window and the index: [X] and [y]
    are cut from the filtered columns, and the column of ones has no null.
    So a pass is skipped only when its fit raises. *)
Theorem null_check_never_holds :
  forall (lib : Library) (df : list Row) (window i : nat),
    let rows := dropna df in
    frame_isnull_any (window_X rows window i) = false
    /\ series_isnull_any (window_y rows window i) = false
    /\ (skipped lib rows window i = true -> fit_raises lib rows window i = true)
    /\ (forall rolling_results,
           i < length rows ->
           loop_body lib rows window rolling_results i = Ok rolling_results ->
           exists e,
             OLS_fit lib (window_y rows window i) (window_X rows window i)
             = Raise e).
Proof.
  intros lib df window i rows.
  assert (Hn : window_has_null rows window i = false)
    by apply window_has_null_notna, dropna_notna.
  pose proof Hn as Hn'.
  unfold window_has_null in Hn'.
  apply orb_false_iff in Hn'.
  destruct Hn' as [HX Hy].
  repeat split; try assumption.
  - unfold skipped.
    now rewrite Hn.
  - intros acc Hi Hbody.
    unfold loop_body in Hbody.
    rewrite HX, Hy in Hbody; simpl in Hbody.
    destruct (OLS_fit lib _ _) as [params | e]; [| now exists e].
    exfalso.
    simpl in Hbody.
    unfold iloc in Hbody.
    destruct (nth_error (map Date rows) i) as [d |] eqn:Hd.
    + simpl in Hbody.
      injection Hbody as Hbody.
      apply (f_equal (@length _)) in Hbody.
      rewrite length_app in Hbody; simpl in Hbody.
      lia.
    + apply nth_error_None in Hd.
      rewrite length_map in Hd.
      lia.
Qed.

Lemma null_check_never_holds_witness :
  exists e,
    OLS_fit Demo.library (window_y (dropna Examples.df_text) 2 3)
            (window_X (dropna Examples.df_text) 2 3)
    = Raise e.
Proof.
  destruct (null_check_never_holds Demo.library Examples.df_text 2 3)
    as [_ [_ [_ H]]].
  apply (H []).
  - vm_compute; lia.
  - vm_compute; reflexivity.
Defined.

Lemma foldM_ext {A S : Type} (f g : S -> A -> result S) (l : list A) :
  (forall s a, f s a = g s a) -> forall s, foldM f l s = foldM g l s.
Proof.
  intros Hfg.
  induction l as [| a l IH]; intros s; simpl.
  - reflexivity.
  - rewrite Hfg.
    destruct (g s a); simpl; auto.
Qed.

Lemma map_regression_columns {C : Type} (f : Row -> C)
    (g : Z * option Q * cell * option Q * option Q * cell -> C)
    (df df' : list Row) :
  (forall r, f r = g (regression_columns r)) ->
  map regression_columns df' = map regression_columns df ->
  map f df' = map f df.
Proof.
  intros Hf Hcols.
  rewrite (map_ext f (fun r => g (regression_columns r)) Hf df').
  rewrite (map_ext f (fun r => g (regression_columns r)) Hf df).
  rewrite <- !(map_map regression_columns g).
  now rewrite Hcols.
Qed.

Lemma dropna_regression_columns (df : list Row) :
  forall df',
    map regression_columns df' = map regression_columns df ->
    map regression_columns (dropna df') = map regression_columns (dropna df).
Proof.
  induction df as [| r df IH]; intros [| r' df'] H; simpl in *;
    try discriminate; [reflexivity |].
  injection H as HD HGR HCPI HDXY HY HGG Hdf.
  assert (E : row_notna r' = row_notna r).
  { unfold row_notna.
    now rewrite HGR, HCPI, HDXY, HY, HGG. }
  rewrite E.
  destruct (row_notna r); simpl; [| now apply IH].
  unfold regression_columns at 1 3.
  rewrite HD, HGR, HCPI, HDXY, HY, HGG.
  f_equal.
  now apply IH.
Qed.

(** The loop reads nothing of the table but these six columns. *)
Lemma loop_body_regression_columns (lib : Library) (rows rows' : list Row)
    (window : nat) (acc : list RegressionPoint) (i : nat) :
  map regression_columns rows' = map regression_columns rows ->
  loop_body lib rows' window acc i = loop_body lib rows window acc i.
Proof.
  intros H.
  unfold loop_body, window_y, window_X, exog_columns.
  rewrite (map_regression_columns Gold_Returns
             (fun c => snd (fst (fst (fst (fst c))))) rows rows'),
    (map_regression_columns India_CPI
       (fun c => snd (fst (fst (fst c)))) rows rows'),
    (map_regression_columns (fun r => cell_of_float (DXY r))
       (fun c => cell_of_float (snd (fst (fst c)))) rows rows'),
    (map_regression_columns (fun r => cell_of_float (US10Y_Yield r))
       (fun c => cell_of_float (snd (fst c))) rows rows'),
    (map_regression_columns GoogleTrends_Gold (fun c => snd c) rows rows'),
    (map_regression_columns Date
       (fun c => fst (fst (fst (fst (fst c))))) rows rows');
    auto.
Qed.



(** ** Order of the dates *)

Lemma StronglySorted_nth_error (l : list Z) :
  StronglySorted Z.lt l ->
  forall i j a b,
    i < j -> nth_error l i = Some a -> nth_error l j = Some b -> (a < b)%Z.
Proof.
  induction 1 as [| x l Hl IH Hx]; intros i j a b Hij Hi Hj.
  - now rewrite nth_error_nil in Hi.
  - destruct j as [| j]; [lia |].
    simpl in Hj.
    destruct i as [| i]; simpl in Hi.
    + injection Hi as <-.
      rewrite Forall_forall in Hx.
      apply Hx.
      eapply nth_error_In; eassumption.
    + apply (IH i j); auto; lia.
Qed.

Lemma increasingb_sound (l : list Z) :
  increasingb l = true -> StronglySorted Z.lt l.
Proof.
  intros H.
  apply Sorted_StronglySorted.
  - intros x y z; apply Z.lt_trans.
  - induction l as [| a l IH]; [constructor |].
    destruct l as [| b l]; [repeat constructor |].
    simpl in H.
    apply andb_true_iff in H.
    destruct H as [Hab Hl].
    constructor.
    + now apply IH.
    + constructor.
      now apply Z.ltb_lt.
Qed.

Lemma StronglySorted_filter_map {A : Type} (key : A -> Z) (f : A -> bool)
    (l : list A) :
  StronglySorted Z.lt (map key l) -> StronglySorted Z.lt (map key (filter f l)).
Proof.
  induction l as [| a l IH]; simpl; intros H.
  - constructor.
  - inversion H as [| ? ? Hl Ha]; subst.
    destruct (f a); simpl; auto.
    constructor; auto.
    rewrite Forall_forall in *.
    intros d Hd.
    apply Ha.
    apply in_map_iff in Hd.
    destruct Hd as [x [<- Hx]].
    apply in_map.
    now apply filter_In in Hx.
Qed.

(** Cells that sit at increasing positions of an increasing column are
    increasing. *)
Lemma flat_map_seq_sorted (g : nat -> list Z) (dates : list Z) :
  StronglySorted Z.lt dates ->
  (forall i d, In d (g i) -> nth_error dates i = Some d) ->
  (forall i, length (g i) <= 1) ->
  forall n a, StronglySorted Z.lt (flat_map g (seq a n)).
Proof.
  intros Hs Hg Hone.
  induction n as [| n IH]; intros a; simpl.
  - constructor.
  - specialize (IH (S a)).
    pose proof (Hone a) as Hlen.
    destruct (g a) as [| d [| d' rest]] eqn:Hga; simpl in *; [assumption | | lia].
    constructor; [assumption |].
    apply Forall_forall.
    intros d' Hd'.
    apply in_flat_map in Hd'.
    destruct Hd' as [j [Hj Hd']].
    apply in_seq in Hj.
    apply (StronglySorted_nth_error dates Hs a j); [lia | | now apply Hg].
    apply Hg.
    rewrite Hga.
    now left.
Qed.

Lemma flat_map_map {A B C : Type} (f : B -> C) (g : A -> list B) (l : list A) :
  map f (flat_map g l) = flat_map (fun a => map f (g a)) l.
Proof.
  induction l as [| a l IH]; simpl.
  - reflexivity.
  - now rewrite map_app, IH.
Qed.

Lemma emitted_dates (lib : Library) (df : list Row) (window i : nat) :
  i < length df ->
  map rp_Date (emitted lib df window i)
  = if skipped lib df window i then [] else [nth i (map Date df) 0%Z].
Proof.
  intros Hi.
  destruct (skipped lib df window i) eqn:Hs.
  - now rewrite (emitted_skipped lib df window i Hs).
  - destruct (nth_error df i) as [r |] eqn:Hr.
    2:{ apply nth_error_None in Hr; lia. }
    destruct (emitted_not_skipped lib df window i r Hs Hr) as [params [_ ->]].
    simpl.
    rewrite (nth_error_nth (map Date df) i 0%Z (x := Date r));
      [reflexivity |].
    now rewrite nth_error_map, Hr.
Qed.

Lemma flat_map_filter_map {A B : Type} (g : A -> list B) (p : A -> bool)
    (h : A -> B) (l : list A) :
  (forall a, In a l -> g a = if p a then [] else [h a]) ->
  flat_map g l = map h (filter (fun a => negb (p a)) l).
Proof.
  induction l as [| a l IH]; simpl; intros Hg.
  - reflexivity.
  - rewrite (Hg a) by now left.
    rewrite IH by (intros x Hx; apply Hg; now right).
    now destruct (p a).
Qed.

(** C5, as the code has it.  The points carry the dates of the rows [i] of
    the filtered table, for the indices [i] of [range(window, len(filtered))]
    whose pass was not skipped, in the order of these indices; these dates
    are strictly increasing when the dates of the filtered rows are; and the
    table has strictly fewer than [len(filtered) - window] points as soon as
    one pass was skipped. *)
Theorem rolling_betas_dates :
  forall (lib : Library) (df : list Row) (window : nat),
    let rows := dropna df in
    exists out,
      calculate_rolling_betas lib df window = Ok out
      /\ map rp_Date out
         = map (fun i => nth i (map Date rows) 0%Z)
               (filter (fun i => negb (skipped lib rows window i))
                       (range window (length rows)))
      /\ (forall p,
             In p out ->
             exists i r,
               window <= i < length rows
               /\ skipped lib rows window i = false
               /\ nth_error rows i = Some r
               /\ rp_Date p = Date r)
      /\ (StronglySorted Z.lt (map Date rows) ->
          StronglySorted Z.lt (map rp_Date out))
      /\ ((exists i, window <= i < length rows
                     /\ skipped lib rows window i = true) ->
          length out < length rows - window).
Proof.
  intros lib df window rows.
  rewrite calculate_rolling_betas_flat_map.
  fold rows.
  eexists; split; [reflexivity |].
  split; [| split; [| split]].
  - rewrite flat_map_map.
    apply flat_map_filter_map.
    intros i Hi.
    apply in_range in Hi.
    apply emitted_dates; lia.
  - intros p Hp.
    apply in_flat_map in Hp.
    destruct Hp as [i [Hi Hp]].
    apply in_range in Hi.
    destruct (emitted_date lib rows window i p Hp) as [r [Hr Hd]].
    exists i, r.
    repeat split; try assumption; try lia.
    destruct (skipped lib rows window i) eqn:Hs; [| reflexivity].
    rewrite (emitted_skipped lib rows window i Hs) in Hp.
    destruct Hp.
  - intros Hsorted.
    rewrite flat_map_map.
    apply (flat_map_seq_sorted _ (map Date rows) Hsorted).
    + intros i d Hd.
      apply in_map_iff in Hd.
      destruct Hd as [p [<- Hp]].
      destruct (emitted_date lib rows window i p Hp) as [r [Hr ->]].
      now rewrite nth_error_map, Hr.
    + intros i.
      rewrite length_map.
      apply emitted_length.
  - intros [i [Hi Hs]].
    replace (length rows - window) with (length (range window (length rows)))
      by (unfold range; apply length_seq).
    apply (flat_map_length_lt _ _ i).
    + intros j; apply emitted_length.
    + now apply in_range.
    + now apply emitted_skipped.
Qed.

Lemma rolling_betas_dates_witness :
  exists out,
    calculate_rolling_betas Demo.library Examples.df_text 2 = Ok out
    /\ StronglySorted Z.lt (map rp_Date out)
    /\ length out < length (dropna Examples.df_text) - 2.
Proof.
  destruct (rolling_betas_dates Demo.library Examples.df_text 2)
    as [out [Hout [_ [_ [Hsorted Hfewer]]]]].
  exists out.
  split; [exact Hout |].
  split.
  - apply Hsorted.
    apply increasingb_sound.
    vm_compute; reflexivity.
  - apply Hfewer.
    exists 3.
    split; [vm_compute; lia | vm_compute; reflexivity].
Defined.

(** C5 without the condition on the dates of the rows fails on a table with
    a repeated date: the price sheet has two rows for day 180, [load_data]
    returns both, and the two points of the regression carry the same
    date. *)
Lemma rolling_betas_dates_repeat :
  exists df out,
    load_data Demo.library Examples.gold_silver_dup Examples.macro_181 = Ok df
    /\ calculate_rolling_betas Demo.library df 180 = Ok out
    /\ map rp_Date out = [180; 180]%Z
    /\ ~ StronglySorted Z.lt (map rp_Date out).
Proof.
  eexists; eexists.
  split; [vm_compute; reflexivity |].
  split; [vm_compute; reflexivity |].
  match goal with
  | |- ?L = _ /\ _ => assert (E : L = [180; 180]%Z) by (vm_compute; reflexivity)
  end.
  split; [exact E |].
  rewrite E.
  intros H.
  inversion H as [| ? ? _ HF]; subst.
  inversion HF; subst.
  lia.
Qed.

Local Close Scope string_scope.

(** ** The error monad *)

Lemma mapM_Ok {A B : Type} (f : A -> result B) (l : list A) :
  forall l', mapM f l = Ok l' -> Forall2 (fun a b => f a = Ok b) l l'.
Proof.
  induction l as [| a l IH]; simpl; intros l' H.
  - injection H as <-; constructor.
  - destruct (f a) as [b | e] eqn:Ea; simpl in H; [| discriminate].
    destruct (mapM f l) as [bs | e]; simpl in H; [| discriminate].
    injection H as <-.
    constructor; auto.
Qed.

Lemma mapM_Raise {A B : Type} (f : A -> result B) (l : list A) (e : exn) :
  mapM f l = Raise e -> exists a, In a l /\ f a = Raise e.
Proof.
  induction l as [| a l IH]; simpl; intros H.
  - discriminate.
  - destruct (f a) as [b | e'] eqn:Ea; simpl in H.
    + destruct (mapM f l) as [bs | e']; simpl in H; [discriminate |].
      destruct (IH H) as [x [Hx Hfx]].
      exists x; auto.
    + exists a; split; [now left | congruence].
Qed.

Lemma mapM_total {A B : Type} (f : A -> result B) (l : list A) :
  (forall a, In a l -> exists b, f a = Ok b) -> exists l', mapM f l = Ok l'.
Proof.
  induction l as [| a l IH]; simpl; intros H.
  - now exists [].
  - destruct (H a) as [b ->]; [now left |].
    destruct IH as [bs ->]; [intros x Hx; apply H; now right |].
    simpl.
    now exists (b :: bs).
Qed.

(** ** Parsing of the dates *)

Lemma to_datetime_cell_Raise (lib : Library) (c : date_cell) (e : exn) :
  to_datetime_cell lib c = Raise e ->
  unparseable lib c /\ exists s, e = ParseError s.
Proof.
  destruct c as [t | s]; simpl; [discriminate |].
  destruct (parse_datetime lib s) eqn:Hs; [discriminate |].
  intros H; injection H as <-.
  split; [exists s; auto | now exists s].
Qed.

Lemma to_datetime_cell_unparseable (lib : Library) (c : date_cell) :
  unparseable lib c -> exists s, to_datetime_cell lib c = Raise (ParseError s).
Proof.
  intros [s [-> Hs]].
  exists s; simpl.
  now rewrite Hs.
Qed.

Lemma to_datetime_cell_total (lib : Library) (c : date_cell) :
  ~ unparseable lib c -> exists t, to_datetime_cell lib c = Ok t.
Proof.
  intros H.
  destruct c as [t | s]; simpl.
  - now exists t.
  - destruct (parse_datetime lib s) as [t |] eqn:Hs.
    + now exists t.
    + exfalso; apply H; now exists s.
Qed.

Lemma to_datetime_prices_Ok (lib : Library) (rows : list (PriceRow date_cell))
    (rows' : list (PriceRow Z)) :
  to_datetime_prices lib rows = Ok rows' ->
  Forall2 (price_parsed lib) rows rows'.
Proof.
  intros H.
  apply mapM_Ok in H.
  eapply Forall2_impl; [| exact H].
  intros raw r Hr; simpl in Hr.
  unfold price_parsed.
  destruct (to_datetime_cell lib (p_Date raw)) as [t |]; simpl in Hr;
    [| discriminate].
  injection Hr as <-.
  simpl.
  repeat split.
Qed.

Lemma to_datetime_macro_Ok (lib : Library) (rows : list (MacroRow date_cell))
    (rows' : list (MacroRow Z)) :
  to_datetime_macro lib rows = Ok rows' ->
  Forall2 (macro_parsed lib) rows rows'.
Proof.
  intros H.
  apply mapM_Ok in H.
  eapply Forall2_impl; [| exact H].
  intros raw r Hr; simpl in Hr.
  unfold macro_parsed.
  destruct (to_datetime_cell lib (m_Date raw)) as [t |]; simpl in Hr;
    [| discriminate].
  injection Hr as <-.
  simpl.
  repeat split.
Qed.

Lemma Forall2_In_r {A B : Type} (P : A -> B -> Prop) (l : list A) (l' : list B) :
  Forall2 P l l' -> forall b, In b l' -> exists a, In a l /\ P a b.
Proof.
  induction 1 as [| a b l l' Hab Hl IH]; simpl; intros x Hx.
  - destruct Hx.
  - destruct Hx as [<- | Hx].
    + exists a; auto.
    + destruct (IH x Hx) as [a' [Ha' HP]].
      exists a'; auto.
Qed.

(** ** The join and the sort *)

Lemma in_merge (left : list (PriceRow Z)) (right : list (MacroRow Z))
    (j : Joined) :
  In j (merge left right)
  <-> exists p m, In p left /\ In m right /\ p_Date p = m_Date m /\ j = join p m.
Proof.
  unfold merge.
  rewrite in_flat_map.
  split.
  - intros [p [Hp Hj]].
    apply in_map_iff in Hj.
    destruct Hj as [m [<- Hm]].
    apply filter_In in Hm.
    destruct Hm as [Hm Heq].
    apply Z.eqb_eq in Heq.
    exists p, m; auto.
  - intros [p [m [Hp [Hm [Heq ->]]]]].
    exists p; split; [assumption |].
    apply in_map, filter_In.
    split; [assumption | now apply Z.eqb_eq].
Qed.

Lemma filter_key_NoDup {A : Type} (key : A -> Z) (d : Z) (l : list A) :
  NoDup (map key l) ->
  length (filter (fun a => Z.eqb d (key a)) l)
  = if existsb (Z.eqb d) (map key l) then 1 else 0.
Proof.
  induction l as [| a l IH]; simpl; intros Hnd.
  - reflexivity.
  - inversion Hnd as [| ? ? Hnotin Hnd']; subst.
    specialize (IH Hnd').
    destruct (Z.eqb d (key a)) eqn:Hd; simpl.
    + apply Z.eqb_eq in Hd; subst d.
      destruct (existsb (Z.eqb (key a)) (map key l)) eqn:Hex.
      * exfalso; apply Hnotin.
        apply existsb_exists in Hex.
        destruct Hex as [x [Hx Hxe]].
        apply Z.eqb_eq in Hxe.
        now subst x.
      * now rewrite IH.
    + exact IH.
Qed.

Lemma merge_dates (left : list (PriceRow Z)) (right : list (MacroRow Z)) :
  NoDup (map (@m_Date Z) right) ->
  map j_Date (merge left right)
  = common_dates (map (@p_Date Z) left) (map (@m_Date Z) right).
Proof.
  intros Hnd.
  unfold merge, common_dates.
  induction left as [| p left IH]; simpl.
  - reflexivity.
  - rewrite map_app, IH, map_map; simpl.
    pose proof (filter_key_NoDup (@m_Date Z) (p_Date p) right Hnd) as Hlen.
    destruct (existsb (Z.eqb (p_Date p)) (map (@m_Date Z) right)).
    + destruct (filter _ right) as [| m [| m' rest]]; simpl in *;
        try discriminate.
      reflexivity.
    + destruct (filter _ right); simpl in *; [reflexivity | discriminate].
Qed.

Lemma insert_by_perm {A : Type} (key : A -> Z) (a : A) (l : list A) :
  Permutation (insert_by key a l) (a :: l).
Proof.
  induction l as [| b l IH]; simpl.
  - reflexivity.
  - destruct (Z.leb (key a) (key b)).
    + reflexivity.
    + rewrite IH.
      apply perm_swap.
Qed.

Lemma sort_values_perm {A : Type} (key : A -> Z) (l : list A) :
  Permutation (sort_values key l) l.
Proof.
  induction l as [| a l IH]; simpl.
  - reflexivity.
  - rewrite insert_by_perm.
    now apply perm_skip.
Qed.

Lemma insert_by_sorted {A : Type} (key : A -> Z) (a : A) (l : list A) :
  StronglySorted (fun x y => (key x <= key y)%Z) l ->
  StronglySorted (fun x y => (key x <= key y)%Z) (insert_by key a l).
Proof.
  induction 1 as [| b l Hl IH Hb]; simpl.
  - repeat constructor.
  - destruct (Z.leb (key a) (key b)) eqn:Hab.
    + apply Z.leb_le in Hab.
      constructor.
      * now constructor.
      * constructor; [assumption |].
        eapply Forall_impl; [| exact Hb].
        intros x Hx; simpl in Hx; lia.
    + apply Z.leb_gt in Hab.
      constructor; [assumption |].
      rewrite insert_by_perm.
      constructor; [lia | assumption].
Qed.

Lemma sort_values_sorted {A : Type} (key : A -> Z) (l : list A) :
  StronglySorted (fun x y => (key x <= key y)%Z) (sort_values key l).
Proof.
  induction l as [| a l IH]; simpl.
  - constructor.
  - now apply insert_by_sorted.
Qed.

Lemma sorted_NoDup_strict {A : Type} (key : A -> Z) (l : list A) :
  StronglySorted (fun x y => (key x <= key y)%Z) l ->
  NoDup (map key l) ->
  StronglySorted Z.lt (map key l).
Proof.
  induction 1 as [| a l Hl IH Ha]; simpl; intros Hnd.
  - constructor.
  - inversion Hnd as [| ? ? Hnotin Hnd']; subst.
    constructor; [auto |].
    apply Forall_forall.
    intros d Hd.
    assert (key a <> d) by (intros E; rewrite E in Hnotin; contradiction).
    apply in_map_iff in Hd.
    destruct Hd as [x [<- Hx]].
    rewrite Forall_forall in Ha.
    specialize (Ha x Hx).
    simpl in Ha; lia.
Qed.

Lemma sort_values_strict {A : Type} (key : A -> Z) (l : list A) :
  NoDup (map key l) ->
  StronglySorted Z.lt (map key (sort_values key l)).
Proof.
  intros Hnd.
  apply sorted_NoDup_strict.
  - apply sort_values_sorted.
  - apply (Permutation_NoDup (l := map key l)); [| assumption].
    apply Permutation_map.
    symmetry; apply sort_values_perm.
Qed.

(** ** The columns of the merged table *)

Lemma map_imap_from_field {A B C : Type} (g : B -> C) (f : nat -> A -> B)
    (h : A -> C) (l : list A) :
  (forall k a, g (f k a) = h a) ->
  forall start, map g (imap_from start f l) = map h l.
Proof.
  intros Hg.
  induction l as [| a l IH]; intros start; simpl.
  - reflexivity.
  - now rewrite Hg, IH.
Qed.

Lemma skipn_nth_cons {C : Type} (d : C) (col : list C) :
  forall start, start < length col ->
  skipn start col = nth start col d :: skipn (S start) col.
Proof.
  induction col as [| c col IH]; simpl; intros start Hs.
  - lia.
  - destruct start as [| start]; [reflexivity |].
    apply IH; lia.
Qed.

Lemma map_imap_from_col {A B C : Type} (g : B -> C) (f : nat -> A -> B)
    (col : list C) (d : C) (l : list A) :
  (forall k a, g (f k a) = nth k col d) ->
  forall start, length col = start + length l ->
  map g (imap_from start f l) = skipn start col.
Proof.
  intros Hg.
  induction l as [| a l IH]; intros start Hlen; simpl in *.
  - rewrite skipn_all2; [reflexivity | lia].
  - rewrite Hg, IH by lia.
    symmetry; apply skipn_nth_cons; lia.
Qed.

Lemma map_imap_col {A B C : Type} (g : B -> C) (f : nat -> A -> B)
    (col : list C) (d : C) (l : list A) :
  (forall k a, g (f k a) = nth k col d) ->
  length col = length l ->
  map g (imap f l) = col.
Proof.
  intros Hg Hlen.
  unfold imap.
  now rewrite (map_imap_from_col g f col d l Hg 0 Hlen).
Qed.

Lemma in_imap_from {A B : Type} (f : nat -> A -> B) (l : list A) (b : B) :
  forall start,
    In b (imap_from start f l) -> exists k a, In a l /\ b = f k a.
Proof.
  induction l as [| a l IH]; simpl; intros start Hb.
  - destruct Hb.
  - destruct Hb as [<- | Hb].
    + exists start, a; auto.
    + destruct (IH _ Hb) as [k [x [Hx ->]]].
      exists k, x; auto.
Qed.

Lemma rolling_length {A B : Type} (n : nat) (stat : list A -> B) (nan : B)
    (col : list A) :
  length (rolling n stat nan col) = length col.
Proof.
  unfold rolling.
  now rewrite length_map, length_seq.
Qed.

Lemma rolling_nth_error {A B : Type} (n : nat) (stat : list A -> B) (nan : B)
    (col : list A) (k : nat) :
  k < length col ->
  nth_error (rolling n stat nan col) k
  = Some (if S k <? n then nan else stat (iloc_slice (S k - n) (S k) col)).
Proof.
  intros Hk.
  unfold rolling.
  rewrite nth_error_map, nth_error_seq.
  destruct (Nat.ltb_spec k (length col)); [reflexivity | lia].
Qed.

(** What [load_data] returns: the table of the sorted join of the two sheets
    with their dates parsed, or the exception of the first date that does
    not parse. *)
Lemma load_data_inv (lib : Library) (gold_silver : list (PriceRow date_cell))
    (macro : list (MacroRow date_cell)) :
  match load_data lib gold_silver macro with
  | Ok df =>
      exists prices macros,
        to_datetime_prices lib gold_silver = Ok prices
        /\ to_datetime_macro lib macro = Ok macros
        /\ table_columns lib (sort_values j_Date (merge prices macros)) df
  | Raise e =>
      to_datetime_prices lib gold_silver = Raise e
      \/ (exists prices, to_datetime_prices lib gold_silver = Ok prices)
         /\ to_datetime_macro lib macro = Raise e
  end.
Proof.
  unfold load_data.
  destruct (to_datetime_prices lib gold_silver) as [prices | e]; simpl;
    [| now left].
  destruct (to_datetime_macro lib macro) as [macros | e]; simpl.
  2:{ right; split; [now exists prices | reflexivity]. }
  exists prices, macros.
  split; [reflexivity | split; [reflexivity |]].
  set (J := sort_values j_Date (merge prices macros)).
  assert (Hgr : forall F : nat -> Joined -> Row,
             (forall k a, Gold_Returns (F k a)
                          = nth k (map (fun r => to_numeric lib (j_Gold_Returns r)) J)
                                None) ->
             map Gold_Returns (imap F J)
             = map (fun r => to_numeric lib (j_Gold_Returns r)) J).
  { intros F HF.
    apply (map_imap_col _ _ _ None); [exact HF | apply length_map]. }
  assert (Hsr : forall F : nat -> Joined -> Row,
             (forall k a, Silver_Returns (F k a)
                          = nth k (map (fun r => to_numeric lib (j_Silver_Returns r)) J)
                                None) ->
             map Silver_Returns (imap F J)
             = map (fun r => to_numeric lib (j_Silver_Returns r)) J).
  { intros F HF.
    apply (map_imap_col _ _ _ None); [exact HF | apply length_map]. }
  assert (Hdx : forall F : nat -> Joined -> Row,
             (forall k a, DXY (F k a)
                          = nth k (map (fun r => to_numeric lib (j_DXY r)) J) None) ->
             map DXY (imap F J) = map (fun r => to_numeric lib (j_DXY r)) J).
  { intros F HF.
    apply (map_imap_col _ _ _ None); [exact HF | apply length_map]. }
  assert (Hyl : forall F : nat -> Joined -> Row,
             (forall k a, US10Y_Yield (F k a)
                          = nth k (map (fun r => to_numeric lib (j_US10Y_Yield r)) J)
                                None) ->
             map US10Y_Yield (imap F J)
             = map (fun r => to_numeric lib (j_US10Y_Yield r)) J).
  { intros F HF.
    apply (map_imap_col _ _ _ None); [exact HF | apply length_map]. }
  unfold table_columns.
  rewrite Hgr, Hsr, Hdx, Hyl by (intros; reflexivity).
  repeat split;
    try (apply map_imap_from_field; intros; reflexivity);
    try (apply (map_imap_col _ _ _ None);
         [ intros; reflexivity
         | rewrite !length_map; unfold rolling_std;
           now rewrite rolling_length, length_map ]);
    try (apply (map_imap_col _ _ _ NaN);
         [ intros; reflexivity
         | unfold rolling_corr;
           now rewrite rolling_length, length_combine, !length_map, Nat.min_id ]).
  apply map_ext_in.
  intros r Hr.
  apply in_imap_from in Hr.
  destruct Hr as [k [a [_ ->]]].
  reflexivity.
Qed.

Lemma load_data_Ok (lib : Library) (gold_silver : list (PriceRow date_cell))
    (macro : list (MacroRow date_cell)) (df : list Row) :
  load_data lib gold_silver macro = Ok df ->
  exists prices macros,
    to_datetime_prices lib gold_silver = Ok prices
    /\ to_datetime_macro lib macro = Ok macros
    /\ table_columns lib (sort_values j_Date (merge prices macros)) df.
Proof.
  intros H.
  pose proof (load_data_inv lib gold_silver macro) as Hinv.
  now rewrite H in Hinv.
Qed.

Lemma map_eq_nth_error {A B C : Type} (f : A -> C) (g : B -> C) (l : list A)
    (l' : list B) (k : nat) (a : A) :
  map f l = map g l' ->
  nth_error l k = Some a ->
  exists b, nth_error l' k = Some b /\ f a = g b.
Proof.
  intros Hmap Ha.
  assert (H : nth_error (map f l) k = Some (f a))
    by (rewrite nth_error_map, Ha; reflexivity).
  rewrite Hmap, nth_error_map in H.
  destruct (nth_error l' k) as [b |]; simpl in H; [| discriminate].
  exists b; split; [reflexivity | congruence].
Qed.

(** Every row of the merged table comes from a row of each sheet. *)
Lemma load_data_row_source (lib : Library)
    (gold_silver : list (PriceRow date_cell)) (macro : list (MacroRow date_cell))
    (df : list Row) (k : nat) (r : Row) :
  load_data lib gold_silver macro = Ok df ->
  nth_error df k = Some r ->
  exists p m, In p gold_silver /\ In m macro /\ row_of_sheets lib p m r.
Proof.
  intros Hload Hr.
  destruct (load_data_Ok lib gold_silver macro df Hload)
    as [prices [macros [Hp [Hm Hcols]]]].
  set (J := sort_values j_Date (merge prices macros)) in *.
  destruct Hcols as [HDate [HGC [HSC [HGR [HSR [HDXY [HY [HCPI [HGG [HGS _]]]]]]]]]].
  destruct (map_eq_nth_error _ _ _ _ k r HDate Hr) as [j [Hj EDate]].
  assert (Hcol : forall (C : Type) (f : Row -> C) (g : Joined -> C),
             map f df = map g J -> f r = g j).
  { intros C f g Hfg.
    destruct (map_eq_nth_error _ _ _ _ k r Hfg Hr) as [j' [Hj' E]].
    congruence. }
  assert (Hin : In j (merge prices macros)).
  { apply (Permutation_in (l := J)).
    - apply sort_values_perm.
    - eapply nth_error_In; eassumption. }
  apply in_merge in Hin.
  destruct Hin as [p' [m' [Hp' [Hm' [Hdate ->]]]]].
  destruct (Forall2_In_r _ _ _ (to_datetime_prices_Ok lib _ _ Hp) p' Hp')
    as [p [Hpin [Hp1 [Hp2 [Hp3 [Hp4 Hp5]]]]]].
  destruct (Forall2_In_r _ _ _ (to_datetime_macro_Ok lib _ _ Hm) m' Hm')
    as [m [Hmin [Hm1 [Hm2 [Hm3 [Hm4 [Hm5 Hm6]]]]]]].
  exists p, m.
  split; [assumption | split; [assumption |]].
  unfold row_of_sheets.
  rewrite (Hcol _ _ _ HGC), (Hcol _ _ _ HSC), (Hcol _ _ _ HGR), (Hcol _ _ _ HSR),
    (Hcol _ _ _ HDXY), (Hcol _ _ _ HY), (Hcol _ _ _ HCPI), (Hcol _ _ _ HGG),
    (Hcol _ _ _ HGS), (Hcol _ _ _ HDate).
  simpl.
  rewrite Hp1, Hm1, Hdate, Hp2, Hp3, Hp4, Hp5, Hm2, Hm3, Hm4, Hm5, Hm6.
  repeat split.
Qed.

(** ** Properties of load_data *)

Lemma in_common_dates (left right : list Z) (d : Z) :
  In d (common_dates left right) <-> In d left /\ In d right.
Proof.
  unfold common_dates.
  rewrite filter_In, existsb_exists.
  split.
  - intros [Hl [x [Hx Hdx]]].
    apply Z.eqb_eq in Hdx; subst x; auto.
  - intros [Hl Hr].
    split; [assumption |].
    exists d; split; [assumption | apply Z.eqb_refl].
Qed.

(** C3.  On two sheets whose dates all parse and are distinct within each
    sheet, [load_data] is an inner join on the date, sorted by date: it
    returns one row for every date that both sheets have, hence at most as
    many rows as the shorter sheet, and the dates of its rows are strictly
    increasing. *)
Theorem merge_is_sorted_inner_join :
  forall (lib : Library) (gold_silver : list (PriceRow date_cell))
         (macro : list (MacroRow date_cell))
         (prices : list (PriceRow Z)) (macros : list (MacroRow Z)),
    to_datetime_prices lib gold_silver = Ok prices ->
    to_datetime_macro lib macro = Ok macros ->
    NoDup (map (@p_Date Z) prices) ->
    NoDup (map (@m_Date Z) macros) ->
    exists df,
      load_data lib gold_silver macro = Ok df
      /\ (forall d,
             In d (map Date df)
             <-> In d (map (@p_Date Z) prices) /\ In d (map (@m_Date Z) macros))
      /\ length df
         = length (common_dates (map (@p_Date Z) prices) (map (@m_Date Z) macros))
      /\ length df <= Nat.min (length gold_silver) (length macro)
      /\ (forall i j di dj,
             i < j ->
             nth_error (map Date df) i = Some di ->
             nth_error (map Date df) j = Some dj ->
             (di < dj)%Z).
Proof.
  intros lib gold_silver macro prices macros Hp Hm Hndp Hndm.
  pose proof (load_data_inv lib gold_silver macro) as Hinv.
  destruct (load_data lib gold_silver macro) as [df | e].
  2:{ destruct Hinv as [H | [_ H]]; congruence. }
  destruct Hinv as [prices' [macros' [Hp' [Hm' Hcols]]]].
  assert (prices' = prices) by congruence.
  assert (macros' = macros) by congruence.
  subst prices' macros'.
  destruct Hcols as [HDate _].
  set (common := common_dates (map (@p_Date Z) prices) (map (@m_Date Z) macros)).
  assert (Hperm : Permutation (map Date df) common).
  { rewrite HDate.
    unfold common.
    rewrite <- (merge_dates prices macros Hndm).
    apply Permutation_map, sort_values_perm. }
  assert (Hlen : length df = length common).
  { rewrite <- (length_map Date df).
    now apply Permutation_length. }
  exists df.
  split; [reflexivity |].
  split; [| split; [exact Hlen | split]].
  - intros d.
    rewrite <- in_common_dates.
    fold common.
    split; apply Permutation_in; [assumption | now symmetry].
  - rewrite Hlen.
    apply Nat.min_glb.
    + rewrite (Forall2_length (to_datetime_prices_Ok lib _ _ Hp)).
      rewrite <- (length_map (@p_Date Z) prices).
      unfold common, common_dates.
      apply filter_length_le.
    + rewrite (Forall2_length (to_datetime_macro_Ok lib _ _ Hm)).
      rewrite <- (length_map (@m_Date Z) macros).
      apply NoDup_incl_length.
      * now apply NoDup_filter.
      * intros d Hd.
        now apply in_common_dates in Hd.
  - intros i j di dj Hij Hi Hj.
    apply (StronglySorted_nth_error (map Date df)) with (i := i) (j := j);
      try assumption.
    rewrite HDate.
    apply sort_values_strict.
    rewrite merge_dates by assumption.
    now apply NoDup_filter.
Qed.

Lemma merge_is_sorted_inner_join_witness :
  exists df,
    load_data Demo.library Examples.small_prices Examples.small_macro = Ok df
    /\ length df <= 3
    /\ (forall i j di dj,
           i < j ->
           nth_error (map Date df) i = Some di ->
           nth_error (map Date df) j = Some dj ->
           (di < dj)%Z).
Proof.
  edestruct (merge_is_sorted_inner_join Demo.library Examples.small_prices
               Examples.small_macro)
    as [df [Hload [_ [_ [Hmin Hsorted]]]]].
  - vm_compute; reflexivity.
  - vm_compute; reflexivity.
  - vm_compute.
    repeat (constructor; [simpl; intuition discriminate |]).
    constructor.
  - vm_compute.
    repeat (constructor; [simpl; intuition discriminate |]).
    constructor.
  - exists df.
    split; [exact Hload | split; [exact Hmin | exact Hsorted]].
Defined.



Lemma Forall2_In_l {A B : Type} (P : A -> B -> Prop) (l : list A) (l' : list B) :
  Forall2 P l l' -> forall a, In a l -> exists b, In b l' /\ P a b.
Proof.
  induction 1 as [| a b l l' Hab Hl IH]; simpl; intros x Hx.
  - destruct Hx.
  - destruct Hx as [<- | Hx].
    + exists b; auto.
    + destruct (IH x Hx) as [b' [Hb' HP]].
      exists b'; auto.
Qed.

Lemma to_datetime_prices_Raise (lib : Library) (rows : list (PriceRow date_cell))
    (e : exn) :
  to_datetime_prices lib rows = Raise e ->
  exists r, In r rows /\ to_datetime_cell lib (p_Date r) = Raise e.
Proof.
  intros H.
  apply mapM_Raise in H.
  destruct H as [r [Hr He]].
  exists r; split; [assumption |].
  simpl in He.
  destruct (to_datetime_cell lib (p_Date r)); simpl in He; [discriminate |].
  congruence.
Qed.

Lemma to_datetime_macro_Raise (lib : Library) (rows : list (MacroRow date_cell))
    (e : exn) :
  to_datetime_macro lib rows = Raise e ->
  exists r, In r rows /\ to_datetime_cell lib (m_Date r) = Raise e.
Proof.
  intros H.
  apply mapM_Raise in H.
  destruct H as [r [Hr He]].
  exists r; split; [assumption |].
  simpl in He.
  destruct (to_datetime_cell lib (m_Date r)); simpl in He; [discriminate |].
  congruence.
Qed.

(** The exception of [load_data] is that of a date cell of one of the
    sheets. *)
Lemma load_data_Raise (lib : Library) (gold_silver : list (PriceRow date_cell))
    (macro : list (MacroRow date_cell)) (e : exn) :
  load_data lib gold_silver macro = Raise e ->
  exists c,
    In c (map (@p_Date date_cell) gold_silver ++ map (@m_Date date_cell) macro)
    /\ to_datetime_cell lib c = Raise e.
Proof.
  intros H.
  pose proof (load_data_inv lib gold_silver macro) as Hinv.
  rewrite H in Hinv.
  destruct Hinv as [Hp | [_ Hm]].
  - apply to_datetime_prices_Raise in Hp.
    destruct Hp as [r [Hr He]].
    exists (p_Date r); split; [| assumption].
    apply in_or_app; left.
    now apply in_map.
  - apply to_datetime_macro_Raise in Hm.
    destruct Hm as [r [Hr He]].
    exists (m_Date r); split; [| assumption].
    apply in_or_app; right.
    now apply in_map.
Qed.



(** C10.  Of the columns of the sheets, [load_data] passes only
    [Gold_Returns], [Silver_Returns], [DXY] and [US10Y_Yield] through
    [pd.to_numeric]; [India_CPI], [GoogleTrends_Gold] and
    [GoogleTrends_Silver] reach the merged table as the macro sheet has them,
    so a text in one of them stays that text and is not a null. *)
Theorem coercion_only_on_numeric_cols :
  forall (lib : Library) (gold_silver : list (PriceRow date_cell))
         (macro : list (MacroRow date_cell)) (df : list Row),
    load_data lib gold_silver macro = Ok df ->
    forall (k : nat) (r : Row),
      nth_error df k = Some r ->
      exists p m,
        In p gold_silver /\ In m macro
        /\ row_of_sheets lib p m r
        /\ (forall s, m_India_CPI m = Text s ->
                      India_CPI r = Text s /\ cell_isnull (India_CPI r) = false)
        /\ (forall s, m_GoogleTrends_Gold m = Text s ->
                      GoogleTrends_Gold r = Text s
                      /\ cell_isnull (GoogleTrends_Gold r) = false)
        /\ (forall s, m_GoogleTrends_Silver m = Text s ->
                      GoogleTrends_Silver r = Text s
                      /\ cell_isnull (GoogleTrends_Silver r) = false)
        /\ (forall s, m_DXY m = Text s -> parse_numeric lib s = None ->
                      DXY r = None).
Proof.
  intros lib gold_silver macro df Hload k r Hr.
  destruct (load_data_row_source lib gold_silver macro df k r Hload Hr)
    as [p [m [Hp [Hm Hrow]]]].
  exists p, m.
  split; [assumption | split; [assumption | split; [assumption |]]].
  destruct Hrow as [_ [_ [_ [_ [_ [_ [HDXY [_ [HCPI [HGG HGS]]]]]]]]]].
  repeat split.
  - congruence.
  - rewrite HCPI, H; reflexivity.
  - congruence.
  - rewrite HGG, H; reflexivity.
  - congruence.
  - rewrite HGS, H; reflexivity.
  - intros s Hs Hnone.
    rewrite HDXY, Hs; simpl; exact Hnone.
Qed.

Lemma coercion_only_on_numeric_cols_witness :
  load_data Demo.library Examples.small_prices Examples.small_macro
  = Ok Examples.small_table
  /\ nth_error Examples.small_table 1 = Some Examples.small_row1
  /\ India_CPI Examples.small_row1 = Text "n/a"%string
  /\ DXY Examples.small_row1 = None
  /\ exists p m,
      In p Examples.small_prices /\ In m Examples.small_macro
      /\ row_of_sheets Demo.library p m Examples.small_row1.
Proof.
  assert (Hload : load_data Demo.library Examples.small_prices Examples.small_macro
                  = Ok Examples.small_table) by (vm_compute; reflexivity).
  assert (Hr : nth_error Examples.small_table 1 = Some Examples.small_row1)
    by reflexivity.
  destruct (coercion_only_on_numeric_cols _ _ _ _ Hload 1 _ Hr)
    as [p [m [Hp [Hm [Hrow _]]]]].
  split; [exact Hload | split; [exact Hr |]].
  split; [reflexivity | split; [reflexivity |]].
  exists p, m; auto.
Defined.

(** ** Variance of a window *)

Local Open Scope Q_scope.

Lemma Qsum_cons (x : Q) (l : list Q) : Qsum (x :: l) == x + Qsum l.
Proof.
  change (Qsum (x :: l)) with (Qred (x + Qsum l)).
  apply Qred_correct.
Qed.

Lemma Qsum_nonneg (l : list Q) :
  Forall (fun x => 0 <= x) l -> 0 <= Qsum l.
Proof.
  induction 1 as [| x l Hx Hl IH].
  - apply Qle_refl.
  - rewrite Qsum_cons; lra.
Qed.

Lemma Qsum_pos (l : list Q) :
  Forall (fun x => 0 <= x) l -> Exists (fun x => 0 < x) l -> 0 < Qsum l.
Proof.
  intros Hall Hex.
  induction Hex as [x l Hx | x l Hex IH]; inversion Hall as [| ? ? H0 Hl]; subst;
    rewrite Qsum_cons.
  - pose proof (Qsum_nonneg l Hl); lra.
  - specialize (IH Hl); lra.
Qed.

Lemma Qsquare_nonneg (x : Q) : 0 <= x * x.
Proof. nra. Qed.

Lemma Qsquare_pos (x : Q) : ~ x == 0 -> 0 < x * x.
Proof.
  intros H.
  destruct (Q_dec x 0) as [[Hlt | Hgt] | Heq]; [nra | nra | contradiction].
Qed.

Lemma ssqdm_pos (l : list Q) : ~ constant l -> 0 < ssqdm l.
Proof.
  intros Hnc.
  unfold ssqdm.
  set (m := mean l).
  apply Qsum_pos.
  - apply Forall_map, Forall_forall.
    intros x _; apply Qsquare_nonneg.
  - destruct (Forall_Exists_dec (fun x => x == m) (fun x => Qeq_dec x m) l)
      as [Hall | Hex].
    + exfalso; apply Hnc.
      intros a b Ha Hb.
      rewrite Forall_forall in Hall.
      rewrite (Hall a Ha), (Hall b Hb).
      reflexivity.
    + apply Exists_exists in Hex.
      destruct Hex as [x [Hx Hne]].
      apply Exists_exists.
      exists ((x - m) * (x - m)).
      split.
      * apply in_map_iff; exists x; auto.
      * apply Qsquare_pos.
        intros E; apply Hne; lra.
Qed.

Lemma Qlen_minus_one_pos {A : Type} (l : list A) :
  (2 <= length l)%nat -> 0 < Qlen l - 1.
Proof.
  intros H.
  assert (H2 : inject_Z 2 <= Qlen l).
  { unfold Qlen.
    rewrite <- Zle_Qle.
    lia. }
  change (inject_Z 2) with 2%Q in H2.
  lra.
Qed.

Lemma var_pos (l : list Q) : (2 <= length l)%nat -> ~ constant l -> 0 < var l.
Proof.
  intros Hlen Hnc.
  unfold var.
  apply Qlt_shift_div_l.
  - now apply Qlen_minus_one_pos.
  - pose proof (ssqdm_pos l Hnc); lra.
Qed.

Local Close Scope Q_scope.

(** ** Windows of the rolling columns *)

Lemma all_some_notnull (w : list (option Q)) :
  series_isnull_any w = false ->
  exists xs, all_some w = Some xs /\ length xs = length w.
Proof.
  intros H.
  apply all_some_Forall.
  apply existsb_false_Forall in H.
  eapply Forall_impl; [| exact H].
  intros [q |]; simpl; congruence.
Qed.

Lemma all_some_cons {A : Type} (x : option A) (w : list (option A)) :
  all_some (x :: w)
  = match x, all_some w with
    | Some a, Some l' => Some (a :: l')
    | _, _ => None
    end.
Proof. reflexivity. Qed.

Lemma all_some_length {A : Type} (w : list (option A)) :
  forall xs, all_some w = Some xs -> length xs = length w.
Proof.
  induction w as [| x w IH]; intros xs H.
  - injection H as <-; reflexivity.
  - rewrite all_some_cons in H.
    destruct x as [a |]; [| discriminate].
    destruct (all_some w) as [l' |]; [| discriminate].
    injection H as <-; simpl.
    now rewrite (IH l').
Qed.

Lemma all_some_pairs (w1 w2 : list (option Q)) :
  forall xs ys,
    all_some w1 = Some xs -> all_some w2 = Some ys ->
    all_some (map pair_some (combine w1 w2)) = Some (combine xs ys).
Proof.
  revert w2.
  induction w1 as [| x w1 IH]; intros w2 xs ys H1 H2.
  - injection H1 as <-; reflexivity.
  - rewrite all_some_cons in H1.
    destruct x as [a |]; [| discriminate].
    destruct (all_some w1) as [xs' |] eqn:E1; [| discriminate].
    injection H1 as <-.
    destruct w2 as [| y w2].
    + injection H2 as <-; reflexivity.
    + rewrite all_some_cons in H2.
      destruct y as [b |]; [| discriminate].
      destruct (all_some w2) as [ys' |] eqn:E2; [| discriminate].
      injection H2 as <-.
      cbn [combine map pair_some].
      rewrite all_some_cons.
      now rewrite (IH w2 xs' ys' eq_refl E2).
Qed.

Lemma skipn_combine {A B : Type} (n : nat) :
  forall (l : list A) (l' : list B),
    skipn n (combine l l') = combine (skipn n l) (skipn n l').
Proof.
  induction n as [| n IH]; intros l l'; simpl.
  - reflexivity.
  - destruct l as [| a l]; [reflexivity |].
    destruct l' as [| b l']; simpl.
    + now destruct (skipn n l).
    + apply IH.
Qed.

Lemma iloc_slice_combine {A B : Type} (a b : nat) (l : list A) (l' : list B) :
  iloc_slice a b (combine l l') = combine (iloc_slice a b l) (iloc_slice a b l').
Proof.
  unfold iloc_slice.
  now rewrite skipn_combine, combine_firstn.
Qed.

Lemma map_fst_combine_eq {A B : Type} (l : list A) :
  forall l' : list B, length l = length l' -> map fst (combine l l') = l.
Proof.
  induction l as [| a l IH]; intros [| b l'] H; simpl in *; try discriminate.
  - reflexivity.
  - now rewrite IH by lia.
Qed.

Lemma map_snd_combine_eq {A B : Type} (l : list A) :
  forall l' : list B, length l = length l' -> map snd (combine l l') = l'.
Proof.
  induction l as [| a l IH]; intros [| b l'] H; simpl in *; try discriminate.
  - reflexivity.
  - now rewrite IH by lia.
Qed.

Lemma window_std_notnull (lib : Library) (w : list (option Q)) :
  2 <= length w -> series_isnull_any w = false ->
  exists v, window_std lib w = Some v.
Proof.
  intros Hlen Hnull.
  destruct (all_some_notnull w Hnull) as [xs [Hxs Hl]].
  unfold window_std.
  rewrite Hxs.
  destruct (Nat.leb_spec (length xs) 1); [lia |].
  eexists; reflexivity.
Qed.

Lemma fdiv_finite (a b : Q) : (0 < b)%Q -> fdiv a b = Fin (a / b).
Proof.
  intros Hb.
  unfold fdiv.
  destruct (Qeq_bool b 0) eqn:E; [| reflexivity].
  apply Qeq_bool_iff in E.
  lra.
Qed.

Lemma window_corr_finite (lib : Library) (w1 w2 : list (option Q))
    (xs ys : list Q) :
  (forall q, 0 < q -> 0 < sqrt lib q)%Q ->
  all_some w1 = Some xs -> all_some w2 = Some ys ->
  length w1 = length w2 -> 2 <= length w1 ->
  ~ constant xs -> ~ constant ys ->
  exists c, window_corr lib (combine w1 w2) = Fin c.
Proof.
  intros Hsqrt H1 H2 Hlen Hbig Hx Hy.
  pose proof (all_some_length w1 xs H1) as Lx.
  pose proof (all_some_length w2 ys H2) as Ly.
  unfold window_corr.
  rewrite (all_some_pairs w1 w2 xs ys H1 H2).
  rewrite length_combine.
  destruct (Nat.leb_spec (Nat.min (length xs) (length ys)) 1); [lia |].
  rewrite map_fst_combine_eq, map_snd_combine_eq by lia.
  eexists.
  apply fdiv_finite.
  apply Hsqrt.
  apply Qmult_lt_0_compat; apply var_pos; assumption || lia.
Qed.

Lemma rolling_std_at (lib : Library) (n : nat) (col : list (option Q)) (k : nat) :
  k < length col ->
  nth_error (rolling_std lib n col) k
  = Some (if S k <? n then None
          else window_std lib (iloc_slice (S k - n) (S k) col)).
Proof.
  intros Hk.
  unfold rolling_std.
  now rewrite rolling_nth_error.
Qed.

Lemma rolling_corr_at (lib : Library) (n : nat) (col other : list (option Q))
    (k : nat) :
  k < length col -> length col = length other ->
  nth_error (rolling_corr lib n col other) k
  = Some (if S k <? n then NaN
          else window_corr lib (combine (iloc_slice (S k - n) (S k) col)
                                        (iloc_slice (S k - n) (S k) other))).
Proof.
  intros Hk Hlen.
  unfold rolling_corr.
  rewrite rolling_nth_error.
  - now rewrite iloc_slice_combine.
  - rewrite length_combine; lia.
Qed.

Lemma sqrt_up_pos : (forall q, 0 < q -> 0 < Demo.sqrt_up q)%Q.
Proof.
  intros q Hq.
  unfold Demo.sqrt_up.
  destruct (Qle_bool q 0) eqn:E.
  - apply Qle_bool_iff in E; lra.
  - unfold Qlt; cbn [Qnum Qden].
    pose proof (Z.sqrt_nonneg (Qnum q * 10 ^ 12 / QDen q)).
    lia.
Qed.




(** * Further properties *)

(** ** The regression on short tables, null rows and single windows *)

(** The five values of a row that the regression reads. *)
Definition regression_values (r : Row)
  : option Q * cell * option Q * option Q * cell :=
  (Gold_Returns r, India_CPI r, DXY r, US10Y_Yield r, GoogleTrends_Gold r).

Lemma flat_map_nil_iff {A B : Type} (f : A -> list B) (l : list A) :
  flat_map f l = [] <-> forall a, In a l -> f a = [].
Proof.
  induction l as [| a l IH]; simpl.
  - split; [intros _ x [] | reflexivity].
  - split.
    + intros H x [<- | Hx].
      * now apply app_eq_nil in H.
      * apply app_eq_nil in H.
        now apply IH.
    + intros H.
      rewrite (H a) by now left.
      apply IH.
      intros x Hx; apply H; now right.
Qed.

Lemma emitted_nil_iff (lib : Library) (df : list Row) (window i : nat) :
  i < length df ->
  emitted lib df window i = [] <-> skipped lib df window i = true.
Proof.
  intros Hi.
  split.
  - intros He.
    destruct (skipped lib df window i) eqn:Hs; [reflexivity |].
    destruct (nth_error df i) as [r |] eqn:Hr.
    + destruct (emitted_not_skipped lib df window i r Hs Hr) as [params [_ E]].
      congruence.
    + apply nth_error_None in Hr; lia.
  - apply emitted_skipped.
Qed.

(** X1.  [calculate_rolling_betas] returns the empty table exactly when
    every pass of its loop is skipped; so it does whenever at most [window]
    rows have the five fields, and a table of more rows comes back as soon as
    one fit goes through. *)
Theorem rolling_betas_empty_iff :
  forall (lib : Library) (df : list Row) (window : nat),
    let rows := dropna df in
    (calculate_rolling_betas lib df window = Ok []
     <-> forall i, window <= i < length rows -> skipped lib rows window i = true)
    /\ (length rows <= window -> calculate_rolling_betas lib df window = Ok []).
Proof.
  intros lib df window rows.
  assert (Hiff : calculate_rolling_betas lib df window = Ok []
                 <-> forall i, window <= i < length rows ->
                               skipped lib rows window i = true).
  { rewrite calculate_rolling_betas_flat_map.
    fold rows.
    split.
    - intros H i Hi.
      injection H as H.
      apply emitted_nil_iff; [lia |].
      apply (proj1 (flat_map_nil_iff _ _) H).
      now apply in_range.
    - intros H.
      f_equal.
      apply flat_map_nil_iff.
      intros i Hi.
      apply in_range in Hi.
      apply emitted_nil_iff; [lia | auto]. }
  split; [exact Hiff |].
  intros Hshort.
  apply Hiff.
  intros i Hi; lia.
Qed.

Lemma rolling_betas_empty_iff_witness :
  calculate_rolling_betas Demo.library Examples.df_text 6 = Ok [].
Proof.
  apply (proj2 (rolling_betas_empty_iff Demo.library Examples.df_text 6)).
  vm_compute; lia.
Defined.

Lemma dropna_app (l1 l2 : list Row) : dropna (l1 ++ l2) = dropna l1 ++ dropna l2.
Proof. apply filter_app. Qed.

Lemma dropna_idempotent (df : list Row) : dropna (dropna df) = dropna df.
Proof.
  unfold dropna.
  induction df as [| r df IH]; simpl.
  - reflexivity.
  - destruct (row_notna r) eqn:E; simpl; [rewrite E, IH |]; auto.
Qed.

Lemma calculate_rolling_betas_dropna (lib : Library) (df df' : list Row)
    (window : nat) :
  dropna df' = dropna df ->
  calculate_rolling_betas lib df' window = calculate_rolling_betas lib df window.
Proof.
  intros H.
  unfold calculate_rolling_betas.
  now rewrite H.
Qed.

(** X2.  A row with a null in one of the five fields counts for nothing in
    the regression: the result is the same with the row and without it,
    wherever it stands, so the windows close over the gap it leaves; and
    filtering the table beforehand changes nothing. *)
Theorem null_row_counts_for_nothing :
  forall (lib : Library) (before after : list Row) (r : Row) (window : nat),
    row_notna r = false ->
    calculate_rolling_betas lib (before ++ r :: after) window
    = calculate_rolling_betas lib (before ++ after) window
    /\ calculate_rolling_betas lib (dropna (before ++ r :: after)) window
       = calculate_rolling_betas lib (before ++ r :: after) window.
Proof.
  intros lib before after r window Hr.
  split; apply calculate_rolling_betas_dropna.
  - rewrite !dropna_app.
    unfold dropna at 2; simpl.
    now rewrite Hr.
  - apply dropna_idempotent.
Qed.

Lemma null_row_counts_for_nothing_witness :
  calculate_rolling_betas Demo.library
    (firstn 1 Examples.df_null ++ Examples.with_null 1 :: skipn 2 Examples.df_null) 2
  = calculate_rolling_betas Demo.library
      (firstn 1 Examples.df_null ++ skipn 2 Examples.df_null) 2.
Proof.
  apply (proj1 (null_row_counts_for_nothing Demo.library
                  (firstn 1 Examples.df_null) (skipn 2 Examples.df_null)
                  (Examples.with_null 1) 2 eq_refl)).
Defined.

Lemma map_regression_values {C : Type} (f : Row -> C)
    (g : option Q * cell * option Q * option Q * cell -> C)
    (a b : nat) (rows rows' : list Row) :
  (forall r, f r = g (regression_values r)) ->
  iloc_slice a b (map regression_values rows')
  = iloc_slice a b (map regression_values rows) ->
  iloc_slice a b (map f rows') = iloc_slice a b (map f rows).
Proof.
  intros Hf H.
  rewrite (map_ext f (fun r => g (regression_values r)) Hf rows').
  rewrite (map_ext f (fun r => g (regression_values r)) Hf rows).
  rewrite <- !(map_map regression_values g), !(iloc_slice_map g).
  now rewrite H.
Qed.

(** X3.  Pass [i] of the loop reads the five fields of the [window] rows
    before row [i], and of row [i] its date only: two tables that agree on
    these give the same pass, whatever row [i] itself, the rows after it and
    the rows before the window hold. *)
Theorem pass_reads_its_window_only :
  forall (lib : Library) (rows rows' : list Row) (window i : nat)
         (rolling_results : list RegressionPoint),
    iloc_slice (i - window) i (map regression_values rows')
    = iloc_slice (i - window) i (map regression_values rows) ->
    nth_error (map Date rows') i = nth_error (map Date rows) i ->
    loop_body lib rows' window rolling_results i
    = loop_body lib rows window rolling_results i.
Proof.
  intros lib rows rows' window i acc Hwin Hdate.
  unfold loop_body, window_y, window_X, exog_columns, frame_iloc_slice, iloc.
  cbn [map fst snd].
  rewrite (map_regression_values Gold_Returns
             (fun c => fst (fst (fst (fst c)))) _ _ rows rows'),
    (map_regression_values India_CPI
       (fun c => snd (fst (fst (fst c)))) _ _ rows rows'),
    (map_regression_values (fun r => cell_of_float (DXY r))
       (fun c => cell_of_float (snd (fst (fst c)))) _ _ rows rows'),
    (map_regression_values (fun r => cell_of_float (US10Y_Yield r))
       (fun c => cell_of_float (snd (fst c))) _ _ rows rows'),
    (map_regression_values GoogleTrends_Gold (fun c => snd c) _ _ rows rows'),
    Hdate;
    auto.
Qed.

Lemma pass_reads_its_window_only_witness :
  loop_body Demo.library
    (firstn 5 Examples.df300 ++ [Examples.with_text 5; Examples.with_null 1]) 3 [] 5
  = loop_body Demo.library Examples.df300 3 [] 5.
Proof.
  apply (pass_reads_its_window_only Demo.library Examples.df300
           (firstn 5 Examples.df300
            ++ [Examples.with_text 5; Examples.with_null 1]) 3 5 []);
    vm_compute; reflexivity.
Defined.

(** ** The join of load_data, with and without repeated dates *)

Lemma table_row_of_joined (lib : Library) (J : list Joined) (df : list Row)
    (k : nat) (j : Joined) :
  table_columns lib J df ->
  nth_error J k = Some j ->
  exists r,
    nth_error df k = Some r
    /\ Date r = j_Date j
    /\ Gold_Close r = j_Gold_Price j
    /\ Silver_Close r = j_Silver_Price j
    /\ Gold_Returns r = to_numeric lib (j_Gold_Returns j)
    /\ Silver_Returns r = to_numeric lib (j_Silver_Returns j)
    /\ DXY r = to_numeric lib (j_DXY j)
    /\ US10Y_Yield r = to_numeric lib (j_US10Y_Yield j)
    /\ India_CPI r = j_India_CPI j
    /\ GoogleTrends_Gold r = j_GoogleTrends_Gold j
    /\ GoogleTrends_Silver r = j_GoogleTrends_Silver j.
Proof.
  intros Hcols Hj.
  destruct Hcols as [HDate [HGC [HSC [HGR [HSR [HDXY [HY [HCPI [HGG [HGS _]]]]]]]]]].
  assert (Hlen : length df = length J).
  { rewrite <- (length_map Date df), HDate.
    apply length_map. }
  destruct (nth_error df k) as [r |] eqn:Hr.
  2:{ apply nth_error_None in Hr.
      assert (k < length J) by (apply nth_error_Some; congruence).
      lia. }
  assert (Hcol : forall (C : Type) (f : Row -> C) (g : Joined -> C),
             map f df = map g J -> f r = g j).
  { intros C f g Hfg.
    destruct (map_eq_nth_error _ _ _ _ k r Hfg Hr) as [j' [Hj' E]].
    congruence. }
  exists r.
  split; [reflexivity |].
  split; [exact (Hcol _ _ _ HDate) |].
  split; [exact (Hcol _ _ _ HGC) |].
  split; [exact (Hcol _ _ _ HSC) |].
  split; [exact (Hcol _ _ _ HGR) |].
  split; [exact (Hcol _ _ _ HSR) |].
  split; [exact (Hcol _ _ _ HDXY) |].
  split; [exact (Hcol _ _ _ HY) |].
  split; [exact (Hcol _ _ _ HCPI) |].
  split; [exact (Hcol _ _ _ HGG) | exact (Hcol _ _ _ HGS)].
Qed.

(** X4.  The join of [load_data] is complete, repeated dates included: a row
    of the price sheet and a row of the macro sheet whose dates parse to the
    same date always give a row of the merged table. *)
Theorem load_data_joins_every_pair :
  forall (lib : Library) (gold_silver : list (PriceRow date_cell))
         (macro : list (MacroRow date_cell)) (df : list Row),
    load_data lib gold_silver macro = Ok df ->
    forall (p : PriceRow date_cell) (m : MacroRow date_cell) (t : Z),
      In p gold_silver ->
      In m macro ->
      to_datetime_cell lib (p_Date p) = Ok t ->
      to_datetime_cell lib (m_Date m) = Ok t ->
      exists r, In r df /\ Date r = t /\ row_of_sheets lib p m r.
Proof.
  intros lib gold_silver macro df Hload p m t Hp Hm Hpt Hmt.
  destruct (load_data_Ok lib gold_silver macro df Hload)
    as [prices [macros [Hprices [Hmacros Hcols]]]].
  destruct (Forall2_In_l _ _ _ (to_datetime_prices_Ok lib _ _ Hprices) p Hp)
    as [p' [Hp' [Hp1 [Hp2 [Hp3 [Hp4 Hp5]]]]]].
  destruct (Forall2_In_l _ _ _ (to_datetime_macro_Ok lib _ _ Hmacros) m Hm)
    as [m' [Hm' [Hm1 [Hm2 [Hm3 [Hm4 [Hm5 Hm6]]]]]]].
  assert (Ep : p_Date p' = t) by congruence.
  assert (Em : m_Date m' = t) by congruence.
  assert (Hin : In (join p' m') (sort_values j_Date (merge prices macros))).
  { apply (Permutation_in (l := merge prices macros)).
    - symmetry; apply sort_values_perm.
    - apply in_merge.
      exists p', m'.
      repeat split; try assumption.
      congruence. }
  apply In_nth_error in Hin.
  destruct Hin as [k Hk].
  destruct (table_row_of_joined lib _ df k _ Hcols Hk)
    as [r [Hr [HD [HGC [HSC [HGR [HSR [HDXY [HY [HCPI [HGG HGS]]]]]]]]]]].
  simpl in *.
  exists r.
  split; [eapply nth_error_In; eassumption |].
  split; [congruence |].
  unfold row_of_sheets.
  rewrite HD, HGC, HSC, HGR, HSR, HDXY, HY, HCPI, HGG, HGS.
  rewrite Hp1, Hm1, Hp2, Hp3, Hp4, Hp5, Hm2, Hm3, Hm4, Hm5, Hm6, Ep, Em.
  repeat split.
Qed.

Lemma load_data_joins_every_pair_witness :
  exists r,
    In r Examples.small_table
    /\ Date r = 20250103%Z
    /\ row_of_sheets Demo.library
         (nth 0 Examples.small_prices (Examples.price_row 0))
         (nth 0 Examples.small_macro (Examples.macro_row 0)) r.
Proof.
  apply (load_data_joins_every_pair Demo.library Examples.small_prices
           Examples.small_macro Examples.small_table).
  - vm_compute; reflexivity.
  - simpl; tauto.
  - simpl; tauto.
  - vm_compute; reflexivity.
  - vm_compute; reflexivity.
Defined.

Lemma filter_key_count_occ {A : Type} (key : A -> Z) (d : Z) (l : list A) :
  length (filter (fun a => Z.eqb d (key a)) l) = count_occ Z.eq_dec (map key l) d.
Proof.
  induction l as [| a l IH]; simpl.
  - reflexivity.
  - destruct (Z.eqb_spec d (key a)) as [E | E];
      destruct (Z.eq_dec (key a) d) as [E' | E']; simpl; congruence.
Qed.

Lemma merge_length (left : list (PriceRow Z)) (right : list (MacroRow Z)) :
  length (merge left right)
  = list_sum (map (fun p => count_occ Z.eq_dec (map (@m_Date Z) right) (p_Date p))
                  left).
Proof.
  unfold merge.
  rewrite length_flat_map.
  f_equal.
  apply map_ext.
  intros p.
  rewrite length_map.
  apply filter_key_count_occ.
Qed.

Lemma StronglySorted_map_key {A : Type} (key : A -> Z) (l : list A) :
  StronglySorted (fun x y => (key x <= key y)%Z) l ->
  StronglySorted Z.le (map key l).
Proof.
  induction 1 as [| a l Hl IH Ha]; simpl; constructor; auto.
  now apply Forall_map.
Qed.

(** X5.  Whatever the dates of the two sheets, repeated or not, the merged
    table has, for each row of the price sheet, as many rows as the macro
    sheet has rows of that date; its dates are in ascending order (equal
    dates side by side); and it is empty when the sheets share no date. *)
Theorem load_data_row_count_and_order :
  forall (lib : Library) (gold_silver : list (PriceRow date_cell))
         (macro : list (MacroRow date_cell))
         (prices : list (PriceRow Z)) (macros : list (MacroRow Z)),
    to_datetime_prices lib gold_silver = Ok prices ->
    to_datetime_macro lib macro = Ok macros ->
    exists df,
      load_data lib gold_silver macro = Ok df
      /\ length df
         = list_sum
             (map (fun p => count_occ Z.eq_dec (map (@m_Date Z) macros) (p_Date p))
                  prices)
      /\ StronglySorted Z.le (map Date df)
      /\ ((forall d, In d (map (@p_Date Z) prices) ->
                     ~ In d (map (@m_Date Z) macros)) ->
          df = []).
Proof.
  intros lib gold_silver macro prices macros Hp Hm.
  pose proof (load_data_inv lib gold_silver macro) as Hinv.
  destruct (load_data lib gold_silver macro) as [df | e].
  2:{ destruct Hinv as [H | [_ H]]; congruence. }
  destruct Hinv as [prices' [macros' [Hp' [Hm' Hcols]]]].
  assert (prices' = prices) by congruence.
  assert (macros' = macros) by congruence.
  subst prices' macros'.
  destruct Hcols as [HDate _].
  assert (Hlen : length df = length (merge prices macros)).
  { rewrite <- (length_map Date df), HDate, length_map.
    apply Permutation_length, sort_values_perm. }
  exists df.
  split; [reflexivity |].
  split; [| split].
  - rewrite Hlen.
    apply merge_length.
  - rewrite HDate.
    apply StronglySorted_map_key, sort_values_sorted.
  - intros Hdisjoint.
    apply length_zero_iff_nil.
    rewrite Hlen.
    apply length_zero_iff_nil.
    destruct (merge prices macros) as [| j rest] eqn:E; [reflexivity |].
    exfalso.
    assert (Hj : In j (merge prices macros)) by (rewrite E; now left).
    apply in_merge in Hj.
    destruct Hj as [p [m [Hpin [Hmin [Hd _]]]]].
    apply (Hdisjoint (p_Date p)).
    + now apply in_map.
    + rewrite Hd.
      now apply in_map.
Qed.

Lemma load_data_row_count_and_order_witness :
  exists df,
    load_data Demo.library Examples.gold_silver_dup Examples.macro_181 = Ok df
    /\ length df = 182
    /\ StronglySorted Z.le (map Date df).
Proof.
  edestruct (load_data_row_count_and_order Demo.library Examples.gold_silver_dup
               Examples.macro_181) as [df [Hload [Hlen [Hsorted _]]]].
  - vm_compute; reflexivity.
  - vm_compute; reflexivity.
  - exists df.
    split; [exact Hload | split; [| exact Hsorted]].
    rewrite Hlen.
    vm_compute; reflexivity.
Defined.

(** ** The order of the rows of the sheets *)

Lemma mapM_perm {A B : Type} (f : A -> result B) (l l' : list A) :
  Permutation l l' ->
  forall bs, mapM f l = Ok bs ->
  exists bs', mapM f l' = Ok bs' /\ Permutation bs bs'.
Proof.
  induction 1 as [| x l l' Hperm IH | x y l | l l' l'' H1 IH1 H2 IH2];
    intros bs Hbs.
  - exists bs; split; [assumption | reflexivity].
  - simpl in *.
    destruct (f x) as [b | e]; simpl in *; [| discriminate].
    destruct (mapM f l) as [bs0 | e]; simpl in *; [| discriminate].
    injection Hbs as <-.
    destruct (IH bs0 eq_refl) as [bs0' [-> Hp]].
    simpl.
    exists (b :: bs0'); split; [reflexivity | now constructor].
  - simpl in *.
    destruct (f y) as [b | e]; simpl in *; [| discriminate].
    destruct (f x) as [a | e]; simpl in *; [| discriminate].
    destruct (mapM f l) as [bs0 | e]; simpl in *; [| discriminate].
    injection Hbs as <-.
    exists (a :: b :: bs0); split; [reflexivity | apply perm_swap].
  - destruct (IH1 bs Hbs) as [bs' [Hbs' Hp1]].
    destruct (IH2 bs' Hbs') as [bs'' [Hbs'' Hp2]].
    exists bs''; split; [assumption | now transitivity bs'].
Qed.

Lemma filter_perm {A : Type} (f : A -> bool) (l l' : list A) :
  Permutation l l' -> Permutation (filter f l) (filter f l').
Proof.
  induction 1 as [| x l l' Hperm IH | x y l | l l' l'' H1 IH1 H2 IH2]; simpl.
  - constructor.
  - destruct (f x); [now constructor | assumption].
  - destruct (f x), (f y); try reflexivity.
    apply perm_swap.
  - now transitivity (filter f l').
Qed.

Lemma flat_map_perm_pointwise {A B : Type} (f g : A -> list B) (l : list A) :
  (forall a, Permutation (f a) (g a)) ->
  Permutation (flat_map f l) (flat_map g l).
Proof.
  intros Hfg.
  induction l as [| a l IH]; simpl.
  - constructor.
  - now apply Permutation_app.
Qed.

Lemma merge_perm (left left' : list (PriceRow Z)) (right right' : list (MacroRow Z)) :
  Permutation left left' -> Permutation right right' ->
  Permutation (merge left right) (merge left' right').
Proof.
  intros Hl Hr.
  unfold merge.
  transitivity
    (flat_map
       (fun p =>
          map (join p) (filter (fun m => Z.eqb (p_Date p) (m_Date m)) right'))
       left).
  - apply flat_map_perm_pointwise.
    intros p.
    apply Permutation_map.
    now apply filter_perm.
  - now apply Permutation_flat_map.
Qed.

(** Two lists in strict order of their keys with the same elements are the
    same list. *)
Lemma strictly_sorted_perm_eq {A : Type} (key : A -> Z) (l : list A) :
  forall l',
    StronglySorted (fun x y => (key x < key y)%Z) l ->
    StronglySorted (fun x y => (key x < key y)%Z) l' ->
    Permutation l l' ->
    l = l'.
Proof.
  induction l as [| a l IH]; intros l' Hs Hs' Hp.
  - now apply Permutation_nil in Hp.
  - destruct l' as [| b l'].
    + symmetry in Hp.
      now apply Permutation_nil in Hp.
    + inversion Hs as [| ? ? Hl Ha]; subst.
      inversion Hs' as [| ? ? Hl' Hb]; subst.
      rewrite Forall_forall in Ha, Hb.
      assert (E : a = b).
      { assert (Hab : In a (b :: l'))
          by (apply (Permutation_in a Hp); now left).
        assert (Hba : In b (a :: l))
          by (apply (Permutation_in b (Permutation_sym Hp)); now left).
        destruct Hab as [-> | Hab]; [reflexivity |].
        destruct Hba as [-> | Hba]; [reflexivity |].
        specialize (Ha b Hba).
        specialize (Hb a Hab).
        simpl in *; lia. }
      subst b.
      f_equal.
      apply IH; try assumption.
      now apply Permutation_cons_inv in Hp.
Qed.

Lemma sorted_NoDup_strict_rows {A : Type} (key : A -> Z) (l : list A) :
  StronglySorted (fun x y => (key x <= key y)%Z) l ->
  NoDup (map key l) ->
  StronglySorted (fun x y => (key x < key y)%Z) l.
Proof.
  induction 1 as [| a l Hl IH Ha]; simpl; intros Hnd.
  - constructor.
  - inversion Hnd as [| ? ? Hnotin Hnd']; subst.
    constructor; [auto |].
    rewrite Forall_forall in *.
    intros x Hx.
    specialize (Ha x Hx).
    assert (key a <> key x).
    { intros E; apply Hnotin.
      rewrite E.
      now apply in_map. }
    simpl in Ha; lia.
Qed.

Lemma sort_values_perm_eq {A : Type} (key : A -> Z) (l l' : list A) :
  Permutation l l' ->
  NoDup (map key l) ->
  sort_values key l' = sort_values key l.
Proof.
  intros Hp Hnd.
  assert (Hstrict : forall x : list A,
             Permutation l x ->
             StronglySorted (fun a b => (key a < key b)%Z) (sort_values key x)).
  { intros x Hx.
    apply sorted_NoDup_strict_rows.
    - apply sort_values_sorted.
    - apply (Permutation_NoDup (l := map key l)); [| assumption].
      apply Permutation_map.
      transitivity x; [assumption |].
      symmetry; apply sort_values_perm. }
  apply strictly_sorted_perm_eq with (key := key).
  - now apply Hstrict.
  - apply Hstrict; reflexivity.
  - rewrite !sort_values_perm.
    now symmetry.
Qed.



(** ** The four rolling columns *)

Lemma all_some_null (w : list (option Q)) :
  series_isnull_any w = true -> all_some w = None.
Proof.
  unfold series_isnull_any.
  induction w as [| x w IH]; intros H.
  - discriminate.
  - rewrite all_some_cons.
    destruct x as [q |]; [| reflexivity].
    simpl in H.
    now rewrite IH.
Qed.

Lemma all_some_pairs_null (w1 : list (option Q)) :
  forall w2,
    length w1 = length w2 ->
    series_isnull_any w1 = true \/ series_isnull_any w2 = true ->
    all_some (map pair_some (combine w1 w2)) = None.
Proof.
  unfold series_isnull_any.
  induction w1 as [| x w1 IH]; intros [| y w2] Hlen H; try discriminate.
  - destruct H; discriminate.
  - cbn [combine map].
    rewrite all_some_cons.
    destruct x as [a |]; [| reflexivity].
    destruct y as [b |]; [| reflexivity].
    simpl in Hlen, H.
    cbn [pair_some].
    rewrite IH; [reflexivity | lia | assumption].
Qed.

Lemma window_std_notnull_iff (lib : Library) (w : list (option Q)) :
  2 <= length w ->
  window_std lib w <> None <-> series_isnull_any w = false.
Proof.
  intros Hlen.
  split.
  - intros H.
    destruct (series_isnull_any w) eqn:E; [| reflexivity].
    exfalso; apply H.
    unfold window_std.
    now rewrite (all_some_null w E).
  - intros H.
    destruct (window_std_notnull lib w Hlen H) as [v ->].
    discriminate.
Qed.

Lemma scale_notnull (c : Q) (x : option Q) : scale c x <> None <-> x <> None.
Proof. destruct x; simpl; split; congruence. Qed.

(** A rolling volatility column, row by row. *)
Lemma volatility_column_row (lib : Library) (returns vol : list (option Q))
    (k : nat) (v : option Q) :
  vol = map (scale (annualization lib)) (rolling_std lib 30 returns) ->
  nth_error vol k = Some v ->
  v <> None
  <-> 29 <= k /\ series_isnull_any (iloc_slice (k - 29) (S k) returns) = false.
Proof.
  intros -> Hv.
  assert (Hk : k < length returns).
  { rewrite <- (rolling_length 30 (window_std lib) None returns).
    fold (rolling_std lib 30 returns).
    rewrite <- (length_map (scale (annualization lib))).
    apply nth_error_Some; congruence. }
  rewrite nth_error_map, rolling_std_at in Hv by assumption.
  simpl in Hv.
  injection Hv as <-.
  rewrite scale_notnull.
  destruct (Nat.ltb_spec (S k) 30).
  - split; [congruence | lia].
  - change (S k - 30) with (k - 29).
    rewrite window_std_notnull_iff.
    + split; [intros H'; split; [lia | assumption] | tauto].
    + rewrite (iloc_slice_length 30 (S k)); lia.
Qed.

(** A rolling correlation column, row by row. *)
Lemma correlation_column_row (lib : Library) (col other : list (option Q))
    (corr : list float64) (k : nat) (c : float64) :
  length col = length other ->
  corr = rolling_corr lib 90 col other ->
  nth_error corr k = Some c ->
  (k < 89
   \/ series_isnull_any (iloc_slice (k - 89) (S k) col) = true
   \/ series_isnull_any (iloc_slice (k - 89) (S k) other) = true ->
   c = NaN)
  /\ (89 <= k ->
      (forall q, 0 < q -> 0 < sqrt lib q)%Q ->
      forall xs ys,
        all_some (iloc_slice (k - 89) (S k) col) = Some xs ->
        all_some (iloc_slice (k - 89) (S k) other) = Some ys ->
        ~ constant xs -> ~ constant ys ->
        exists q, c = Fin q).
Proof.
  intros Hlen -> Hc.
  assert (Hk : k < length col).
  { assert (H : k < length (rolling_corr lib 90 col other))
      by (apply nth_error_Some; congruence).
    unfold rolling_corr in H.
    rewrite rolling_length, length_combine in H.
    lia. }
  rewrite rolling_corr_at in Hc by assumption.
  injection Hc as <-.
  change (S k - 90) with (k - 89).
  assert (Hwin : forall l : list (option Q),
             length l = length col -> 89 <= k ->
             length (iloc_slice (k - 89) (S k) l) = 90)
    by (intros l Hl Hge; apply (iloc_slice_length 90 (S k)); lia).
  split.
  - intros H.
    destruct (Nat.ltb_spec (S k) 90); [reflexivity |].
    destruct H as [H | H]; [lia |].
    unfold window_corr.
    rewrite all_some_pairs_null; [reflexivity | | exact H].
    rewrite !Hwin; auto; lia.
  - intros Hge Hsqrt xs ys Hxs Hys Hx Hy.
    destruct (Nat.ltb_spec (S k) 90); [lia |].
    apply (window_corr_finite lib _ _ xs ys); try assumption;
      rewrite !Hwin; auto; lia.
Qed.

(** Row [k] of a correlation column [corr] of the table [df], between
    [Gold_Returns] and the column [other]. *)
Definition correlation_row (lib : Library) (df : list Row) (k : nat) (r : Row)
    (other : Row -> option Q) (corr : Row -> float64) : Prop :=
  (k < 89
   \/ series_isnull_any (iloc_slice (k - 89) (S k) (map Gold_Returns df)) = true
   \/ series_isnull_any (iloc_slice (k - 89) (S k) (map other df)) = true ->
   corr r = NaN)
  /\ (89 <= k ->
      (forall q, 0 < q -> 0 < sqrt lib q)%Q ->
      forall xs ys,
        all_some (iloc_slice (k - 89) (S k) (map Gold_Returns df)) = Some xs ->
        all_some (iloc_slice (k - 89) (S k) (map other df)) = Some ys ->
        ~ constant xs -> ~ constant ys ->
        exists q, corr r = Fin q).



(** ** From the sheets to the regression *)

Lemma rolling_betas_sorted (lib : Library) (df : list Row) (window : nat) :
  StronglySorted Z.lt (map Date df) ->
  exists out,
    calculate_rolling_betas lib df window = Ok out
    /\ StronglySorted Z.lt (map rp_Date out)
    /\ forall p, In p out -> In (rp_Date p) (map Date df).
Proof.
  intros Hsorted.
  rewrite calculate_rolling_betas_flat_map.
  eexists; split; [reflexivity |].
  set (rows := dropna df).
  assert (Hrows : StronglySorted Z.lt (map Date rows))
    by now apply StronglySorted_filter_map.
  split.
  - rewrite flat_map_map.
    apply (flat_map_seq_sorted _ (map Date rows) Hrows).
    + intros i d Hd.
      apply in_map_iff in Hd.
      destruct Hd as [p [<- Hp]].
      destruct (emitted_date lib rows window i p Hp) as [r [Hr ->]].
      now rewrite nth_error_map, Hr.
    + intros i.
      rewrite length_map.
      apply emitted_length.
  - intros p Hp.
    apply in_flat_map in Hp.
    destruct Hp as [i [_ Hp]].
    destruct (emitted_date lib rows window i p Hp) as [r [Hr ->]].
    apply in_map.
    apply nth_error_In in Hr.
    now apply filter_In in Hr.
Qed.

Lemma StronglySorted_NoDup_lt (l : list Z) :
  StronglySorted Z.lt l -> NoDup l.
Proof.
  induction 1 as [| a l Hl IH Ha]; constructor; [| assumption].
  intros Hin.
  rewrite Forall_forall in Ha.
  specialize (Ha a Hin).
  lia.
Qed.

(** X8.  From sheets whose dates parse and are distinct within each sheet,
    [load_data] followed by [calculate_rolling_betas], as the dashboard calls
    them, gives points whose dates are strictly increasing, each of them a
    date that both sheets have. *)
Theorem dashboard_regression_dates :
  forall (lib : Library) (gold_silver : list (PriceRow date_cell))
         (macro : list (MacroRow date_cell))
         (prices : list (PriceRow Z)) (macros : list (MacroRow Z))
         (window : nat),
    to_datetime_prices lib gold_silver = Ok prices ->
    to_datetime_macro lib macro = Ok macros ->
    NoDup (map (@p_Date Z) prices) ->
    NoDup (map (@m_Date Z) macros) ->
    exists df out,
      load_data lib gold_silver macro = Ok df
      /\ calculate_rolling_betas lib df window = Ok out
      /\ StronglySorted Z.lt (map rp_Date out)
      /\ forall p,
          In p out ->
          In (rp_Date p) (map (@p_Date Z) prices)
          /\ In (rp_Date p) (map (@m_Date Z) macros).
Proof.
  intros lib gold_silver macro prices macros window Hp Hm Hndp Hndm.
  pose proof (load_data_inv lib gold_silver macro) as Hinv.
  destruct (load_data lib gold_silver macro) as [df | e].
  2:{ destruct Hinv as [H | [_ H]]; congruence. }
  destruct Hinv as [prices' [macros' [Hp' [Hm' Hcols]]]].
  assert (prices' = prices) by congruence.
  assert (macros' = macros) by congruence.
  subst prices' macros'.
  destruct Hcols as [HDate _].
  assert (Hsorted : StronglySorted Z.lt (map Date df)).
  { rewrite HDate.
    apply sort_values_strict.
    rewrite merge_dates by assumption.
    now apply NoDup_filter. }
  destruct (rolling_betas_sorted lib df window Hsorted) as [out [Hout [Hs Hin]]].
  exists df, out.
  split; [reflexivity | split; [exact Hout | split; [exact Hs |]]].
  intros p Hpo.
  apply in_common_dates.
  rewrite <- (merge_dates prices macros Hndm).
  apply (Permutation_in (l := map j_Date (sort_values j_Date (merge prices macros)))).
  - apply Permutation_map, sort_values_perm.
  - rewrite <- HDate.
    now apply Hin.
Qed.

Lemma dashboard_regression_dates_witness :
  exists df out,
    load_data Demo.library (map Examples.price_row (seq 0 100))
              (map Examples.macro_row (seq 0 100)) = Ok df
    /\ calculate_rolling_betas Demo.library df 90 = Ok out
    /\ StronglySorted Z.lt (map rp_Date out).
Proof.
  edestruct (dashboard_regression_dates Demo.library
               (map Examples.price_row (seq 0 100))
               (map Examples.macro_row (seq 0 100)))
    as [df [out [Hload [Hout [Hsorted _]]]]].
  - vm_compute; reflexivity.
  - vm_compute; reflexivity.
  - apply StronglySorted_NoDup_lt.
    apply increasingb_sound.
    vm_compute; reflexivity.
  - apply StronglySorted_NoDup_lt.
    apply increasingb_sound.
    vm_compute; reflexivity.
  - exists df, out.
    split; [exact Hload | split; [exact Hout | exact Hsorted]].
Defined.

Lemma row_notna_iff (r : Row) :
  row_notna r = true
  <-> Gold_Returns r <> None
      /\ India_CPI r <> Null
      /\ DXY r <> None
      /\ US10Y_Yield r <> None
      /\ GoogleTrends_Gold r <> Null.
Proof.
  unfold row_notna.
  rewrite negb_true_iff, !orb_false_iff.
  destruct (Gold_Returns r), (India_CPI r), (DXY r), (US10Y_Yield r),
    (GoogleTrends_Gold r); simpl; intuition congruence.
Qed.

(** X9.  Which rows of the sheets reach the regression: the row of the merged
    table that comes from a price row and a macro row passes the [dropna] of
    [calculate_rolling_betas] exactly when [Gold_Returns], [DXY] and
    [US10Y_Yield] hold a number or a text that parses as one, and the
    [India_CPI] and [GoogleTrends_Gold] cells are not empty; so a text in
    [India_CPI] or [GoogleTrends_Gold] does not keep a row out, and a text
    that does not parse in one of the other three does. *)
Theorem regression_keeps_row_iff :
  forall (lib : Library) (gold_silver : list (PriceRow date_cell))
         (macro : list (MacroRow date_cell)) (df : list Row),
    load_data lib gold_silver macro = Ok df ->
    forall (k : nat) (r : Row),
      nth_error df k = Some r ->
      exists p m,
        In p gold_silver /\ In m macro
        /\ row_of_sheets lib p m r
        /\ (In r (dropna df)
            <-> to_numeric lib (p_Gold_Returns p) <> None
                /\ m_India_CPI m <> Null
                /\ to_numeric lib (m_DXY m) <> None
                /\ to_numeric lib (m_US10Y_Yield m) <> None
                /\ m_GoogleTrends_Gold m <> Null).
Proof.
  intros lib gold_silver macro df Hload k r Hr.
  destruct (load_data_row_source lib gold_silver macro df k r Hload Hr)
    as [p [m [Hp [Hm Hrow]]]].
  exists p, m.
  split; [assumption | split; [assumption | split; [assumption |]]].
  destruct Hrow as [_ [_ [_ [_ [HGR [_ [HDXY [HY [HCPI [HGG _]]]]]]]]]].
  unfold dropna.
  rewrite filter_In, row_notna_iff, HGR, HDXY, HY, HCPI, HGG.
  apply nth_error_In in Hr.
  tauto.
Qed.

Lemma regression_keeps_row_iff_witness :
  exists p m,
    In p Examples.small_prices /\ In m Examples.small_macro
    /\ row_of_sheets Demo.library p m Examples.small_row1
    /\ (In Examples.small_row1 (dropna Examples.small_table)
        <-> to_numeric Demo.library (p_Gold_Returns p) <> None
            /\ m_India_CPI m <> Null
            /\ to_numeric Demo.library (m_DXY m) <> None
            /\ to_numeric Demo.library (m_US10Y_Yield m) <> None
            /\ m_GoogleTrends_Gold m <> Null).
Proof.
  apply (regression_keeps_row_iff Demo.library Examples.small_prices
           Examples.small_macro Examples.small_table) with (k := 1).
  - vm_compute; reflexivity.
  - reflexivity.
Defined.

(** * The page of the dashboard (the script of src/App.py)

    The script is run from top to bottom on the two uploads; it writes the
    elements of the page one after the other, until its end, [st.stop()] or
    an exception.  The two functions above are called as the script calls
    them ([st.cache_data] only keeps their results). *)

Local Open Scope string_scope.
Local Open Scope list_scope.

Definition float64_of_float (x : option Q) : float64 :=
  match x with Some q => Fin q | None => NaN end.

(** [ax.plot(x, y, label=..., color=...)]. *)
Record plot_line : Type := {
  line_x : list Z;
  line_y : list float64;
  line_label : option string;
  line_color : string
}.

(** A chart, as [st.pyplot(fig)] receives it. *)
Record figure : Type := {
  figsize : nat * nat;
  fig_lines : list plot_line;
  fig_title : string;
  fig_xlabel : string;
  fig_ylabel : string;
  fig_legend : bool;
  fig_grid : bool
}.

(** The chart of [sns.heatmap(corr_matrix, annot=True, cmap=..., center=0,
    fmt=..., ax=ax)]. *)
Record heatmap : Type := {
  heat_figsize : nat * nat;
  heat_matrix : list (string * list float64);
  heat_annot : bool;
  heat_cmap : string;
  heat_center : Z;
  heat_fmt : string;
  heat_title : string
}.

(** What the script puts on the page. *)
Inductive element : Type :=
| st_set_page_config (page_title layout : string)
| st_title (body : string)
| st_write (body : string)
| st_header (body : string)
| st_subheader (body : string)
| st_file_uploader (label : string) (type : list string)
| st_success (body : string)
| st_warning (body : string)
| st_info (body : string)
| st_dataframe (data : list Row)
| st_pyplot (fig : figure)
| st_pyplot_heatmap (fig : heatmap).

(** How a run of the script ends. *)
Inductive outcome : Type :=
| Finished
| Stopped
| Raised (e : exn).

(** [df.head()]. *)
Definition head (df : list Row) : list Row := firstn 5 df.

(** [rolling_df.empty]. *)
Definition empty (rolling_df : list RegressionPoint) : bool :=
  match rolling_df with [] => true | _ :: _ => false end.

Definition price_chart (df : list Row) : figure :=
  {| figsize := (12, 6);
     fig_lines :=
       [ {| line_x := map Date df;
            line_y := map (fun r => float64_of_float (Gold_Close r)) df;
            line_label := Some "Gold Price";
            line_color := "gold" |};
         {| line_x := map Date df;
            line_y := map (fun r => float64_of_float (Silver_Close r)) df;
            line_label := Some "Silver Price";
            line_color := "silver" |} ];
     fig_title := "Gold & Silver Price Rally (2020–2025)";
     fig_xlabel := "Date";
     fig_ylabel := "Price (USD)";
     fig_legend := true;
     fig_grid := true |}.

Definition dxy_corr_chart (df : list Row) : figure :=
  {| figsize := (12, 6);
     fig_lines :=
       [ {| line_x := map Date df;
            line_y := map Gold_to_DXY_Corr df;
            line_label := None;
            line_color := "blue" |} ];
     fig_title := "Rolling Correlation between Gold and DXY (2020–2025)";
     fig_xlabel := "Date";
     fig_ylabel := "Rolling Correlation";
     fig_legend := false;
     fig_grid := true |}.

Definition yield_corr_chart (df : list Row) : figure :=
  {| figsize := (12, 6);
     fig_lines :=
       [ {| line_x := map Date df;
            line_y := map Gold_to_Yield_Corr df;
            line_label := None;
            line_color := "green" |} ];
     fig_title := "Rolling Correlation between Gold and 10Y Yield (2020–2025)";
     fig_xlabel := "Date";
     fig_ylabel := "Rolling Correlation";
     fig_legend := false;
     fig_grid := true |}.

(** [df[corr_cols]]: the seven columns are all in the table. *)
Definition corr_cols (df : list Row) : frame :=
  [ ("Gold_Returns", map (fun r => cell_of_float (Gold_Returns r)) df);
    ("Silver_Returns", map (fun r => cell_of_float (Silver_Returns r)) df);
    ("India_CPI", map India_CPI df);
    ("DXY", map (fun r => cell_of_float (DXY r)) df);
    ("US10Y_Yield", map (fun r => cell_of_float (US10Y_Yield r)) df);
    ("GoogleTrends_Gold", map GoogleTrends_Gold df);
    ("GoogleTrends_Silver", map GoogleTrends_Silver df) ].

Definition corr_heatmap (corr_matrix : list (string * list float64)) : heatmap :=
  {| heat_figsize := (8, 6);
     heat_matrix := corr_matrix;
     heat_annot := true;
     heat_cmap := "coolwarm";
     heat_center := 0;
     heat_fmt := ".2f";
     heat_title := "Correlation Heatmap: Gold, Silver & Macro Variables" |}.

Definition ratio_chart (df : list Row) : figure :=
  {| figsize := (12, 6);
     fig_lines :=
       [ {| line_x := map Date df;
            line_y := map Gold_Silver_Ratio df;
            line_label := None;
            line_color := "purple" |} ];
     fig_title := "Gold–Silver Ratio (2020–2025)";
     fig_xlabel := "Date";
     fig_ylabel := "Ratio (Gold / Silver)";
     fig_legend := false;
     fig_grid := true |}.

Definition betas_chart (rolling_df : list RegressionPoint) : figure :=
  {| figsize := (12, 6);
     fig_lines :=
       [ {| line_x := map rp_Date rolling_df;
            line_y := map (fun p => float64_of_float (Inflation_Beta p)) rolling_df;
            line_label := Some "Inflation Beta";
            line_color := "red" |};
         {| line_x := map rp_Date rolling_df;
            line_y := map (fun p => float64_of_float (DXY_Beta p)) rolling_df;
            line_label := Some "DXY Beta";
            line_color := "blue" |};
         {| line_x := map rp_Date rolling_df;
            line_y :=
              map (fun p => float64_of_float (US10Y_Yield_Beta p)) rolling_df;
            line_label := Some "Yield Beta";
            line_color := "green" |};
         {| line_x := map rp_Date rolling_df;
            line_y := map (fun p => float64_of_float (Sentiment_Beta p)) rolling_df;
            line_label := Some "Sentiment Beta";
            line_color := "orange" |} ];
     fig_title := "Rolling Regression Coefficients (Gold Returns vs Macro Drivers)";
     fig_xlabel := "Date";
     fig_ylabel := "Coefficient Value";
     fig_legend := true;
     fig_grid := true |}.

(** The page down to the two uploaders (lines 8 and 71 to 82). *)
Definition page_top : list element :=
  [ st_set_page_config "Gold & Silver Analysis Dashboard" "wide";
    st_title "The Digital Bullion Rush — Decoding the 2025 Gold & Silver Rally";
    st_write "
This interactive dashboard explores how macroeconomic indicators, sentiment data, and precious metal dynamics 
influenced the 2025 gold and silver rally.
";
    st_header "📂 Data Loading";
    st_write "Upload or ensure both Excel files exist in the working directory:";
    st_file_uploader "Upload gold_silver_data.xlsx" ["xlsx"];
    st_file_uploader "Upload macro_data.xlsx" ["xlsx"] ].

(** The end of the page (lines 175 to 183). *)
Definition page_bottom : list element :=
  [ st_header "🧠 Further Analysis Ideas";
    st_write "
- Add Prophet-based gold price forecast panel.  
- Include sentiment trend plots for Silver.  
- Add date range filters for dynamic chart updates.  
- Integrate ETF inflow data (GLD/SLV) for investor trend analysis.  
";
    st_info "✅ To run locally: `streamlit run dashboard_app.py`" ].

Section Script.

Variable lib : Library.

(** [df[corr_cols].corr()]: the correlation matrix pandas computes, labelled
    by column, or the exception it raises. *)
Variable DataFrame_corr : frame -> result (list (string * list float64)).

(** A run of the script; [uploaded_gold] and [uploaded_macro] are what the
    two uploaders return: the sheet of the file, or [None] while no file is
    uploaded. *)
Definition run_app (uploaded_gold : option (list (PriceRow date_cell)))
    (uploaded_macro : option (list (MacroRow date_cell)))
  : list element * outcome :=
  let page := page_top in
  match uploaded_gold, uploaded_macro with
  | Some gold, Some macro =>
      match load_data lib gold macro with
      | Raise e => (page, Raised e)
      | Ok df =>
          let page :=
            page
            ++ [ st_success "Data loaded successfully!";
                 st_header "🔍 Raw Data Preview";
                 st_dataframe (head df);
                 st_header "📈 Key Visualizations";
                 st_subheader "Gold & Silver Price Rally (2020–2025)";
                 st_pyplot (price_chart df);
                 st_subheader "Rolling Correlation: Gold vs DXY";
                 st_pyplot (dxy_corr_chart df);
                 st_subheader "Rolling Correlation: Gold vs US 10Y Yield";
                 st_pyplot (yield_corr_chart df);
                 st_subheader "Correlation Heatmap: Gold, Silver & Macros" ] in
          match DataFrame_corr (corr_cols df) with
          | Raise e => (page, Raised e)
          | Ok corr_matrix =>
              let page :=
                page
                ++ [ st_pyplot_heatmap (corr_heatmap corr_matrix);
                     st_subheader "Gold–Silver Ratio (2020–2025)";
                     st_pyplot (ratio_chart df);
                     st_subheader "Rolling Regression Coefficients (Gold Returns vs Macros)" ] in
              match calculate_rolling_betas lib df 180 with
              | Raise e => (page, Raised e)
              | Ok rolling_df =>
                  let page :=
                    page
                    ++ [ if negb (empty rolling_df)
                         then st_pyplot (betas_chart rolling_df)
                         else st_warning "Could not calculate rolling regression betas. Possibly due to missing data." ] in
                  (page ++ page_bottom, Finished)
              end
          end
      end
  | _, _ => (page ++ [st_warning "Please upload both files to continue."], Stopped)
  end.

End Script.

Local Close Scope string_scope.

(** A correlation matrix to run the script on: Pearson's coefficient over the
    rows where both columns hold a number, and an exception on a table that
    holds a text. *)
Module DemoCorr.

Definition both (c c' : cell) : option (Q * Q) :=
  match c, c' with
  | Num x, Num y => Some (x, y)
  | _, _ => None
  end.

Fixpoint complete_pairs (col col' : list cell) : list (Q * Q) :=
  match col, col' with
  | c :: rest, c' :: rest' =>
      match both c c' with
      | Some p => p :: complete_pairs rest rest'
      | None => complete_pairs rest rest'
      end
  | _, _ => []
  end.

Definition pearson (col col' : list cell) : float64 :=
  let ps := complete_pairs col col' in
  if length ps <=? 1 then NaN
  else
    let xs := map fst ps in
    let ys := map snd ps in
    let mean_x_y := mean (map (fun p => (fst p * snd p)%Q) ps) in
    fdiv ((mean_x_y - mean xs * mean ys) * (Qlen ps / (Qlen ps - 1)))%Q
         (Demo.sqrt_up (var xs * var ys)).

Definition has_text (X : frame) : bool :=
  existsb (fun nc => existsb (fun c => match c with Text _ => true | _ => false end)
                             (snd nc)) X.

Definition DataFrame_corr (X : frame) : result (list (string * list float64)) :=
  if has_text X then Raise (FitError "could not convert string to float")
  else Ok (map (fun nc => (fst nc, map (fun nc' => pearson (snd nc) (snd nc')) X)) X).

End DemoCorr.

(** ** How a run of the script ends *)

Definition regression_warning : element :=
  st_warning
    "Could not calculate rolling regression betas. Possibly due to missing data.".

Definition is_betas_chart (e : element) : bool :=
  match e with
  | st_pyplot fig =>
      String.eqb (fig_title fig)
        "Rolling Regression Coefficients (Gold Returns vs Macro Drivers)"
  | _ => false
  end.

Definition is_regression_warning (e : element) : bool :=
  match e with
  | st_warning body =>
      String.eqb body
        "Could not calculate rolling regression betas. Possibly due to missing data."
  | _ => false
  end.

(** The dates of the two uploaded sheets. *)
Definition uploaded_dates (gold : list (PriceRow date_cell))
    (macro : list (MacroRow date_cell)) : list date_cell :=
  map (@p_Date date_cell) gold ++ map (@m_Date date_cell) macro.

Lemma load_data_total (lib : Library) (gold : list (PriceRow date_cell))
    (macro : list (MacroRow date_cell)) :
  (forall c, In c (uploaded_dates gold macro) -> ~ unparseable lib c) ->
  exists df, load_data lib gold macro = Ok df.
Proof.
  intros Hdates.
  destruct (load_data lib gold macro) as [df | e] eqn:Hload.
  - now exists df.
  - destruct (load_data_Raise lib gold macro e Hload) as [c [Hc Hraise]].
    apply to_datetime_cell_Raise in Hraise.
    destruct Hraise as [Hbad _].
    now apply Hdates in Hc.
Qed.

Lemma load_data_Ok_dates (lib : Library) (gold : list (PriceRow date_cell))
    (macro : list (MacroRow date_cell)) (df : list Row) :
  load_data lib gold macro = Ok df ->
  forall c, In c (uploaded_dates gold macro) -> ~ unparseable lib c.
Proof.
  intros Hload c Hc Hbad.
  destruct (to_datetime_cell_unparseable lib c Hbad) as [s Hs].
  destruct (load_data_Ok lib gold macro df Hload) as [prices [macros [Hp [Hm _]]]].
  apply in_app_or in Hc.
  destruct Hc as [Hc | Hc]; apply in_map_iff in Hc; destruct Hc as [r [<- Hr]].
  - destruct (Forall2_In_l _ _ _ (to_datetime_prices_Ok lib _ _ Hp) r Hr)
      as [r' [_ [H _]]].
    congruence.
  - destruct (Forall2_In_l _ _ _ (to_datetime_macro_Ok lib _ _ Hm) r Hr)
      as [r' [_ [H _]]].
    congruence.
Qed.

Lemma calculate_rolling_betas_total (lib : Library) (df : list Row) (window : nat) :
  exists rolling_df, calculate_rolling_betas lib df window = Ok rolling_df.
Proof.
  rewrite calculate_rolling_betas_flat_map.
  eexists; reflexivity.
Qed.



Lemma existsb_false_not_In {A : Type} (f : A -> bool) (l : list A) (a : A) :
  existsb f l = false -> f a = true -> ~ In a l.
Proof.
  intros Hl Ha Hin.
  assert (H : existsb f l = true)
    by (apply existsb_exists; now exists a).
  congruence.
Qed.

(** X11.  The regression section of a finished run.  The script runs the
    regression with a window of 180 rows on the merged table; the page shows
    the chart of the four coefficients, one value per point, when the
    regression returned a point, and the warning that the betas could not be
    calculated, and no such chart, when it returned none: as it does whenever
    at most 180 rows of the merged table have the five fields. *)
Theorem regression_section_of_the_page :
  forall (lib : Library)
         (DataFrame_corr : frame -> result (list (string * list float64)))
         (gold : list (PriceRow date_cell)) (macro : list (MacroRow date_cell))
         (page : list element),
    run_app lib DataFrame_corr (Some gold) (Some macro) = (page, Finished) ->
    exists df rolling_df,
      load_data lib gold macro = Ok df
      /\ calculate_rolling_betas lib df 180 = Ok rolling_df
      /\ (length (dropna df) <= 180 -> rolling_df = [])
      /\ (rolling_df = [] ->
          In regression_warning page
          /\ forall points, ~ In (st_pyplot (betas_chart points)) page)
      /\ (rolling_df <> [] ->
          In (st_pyplot (betas_chart rolling_df)) page
          /\ ~ In regression_warning page
          /\ Forall (fun l => length (line_x l) = length rolling_df
                              /\ length (line_y l) = length rolling_df)
                    (fig_lines (betas_chart rolling_df))).
Proof.
  intros lib DataFrame_corr gold macro page Hrun.
  unfold run_app in Hrun.
  destruct (load_data lib gold macro) as [df | e] eqn:Hload; [| discriminate].
  destruct (DataFrame_corr (corr_cols df)) as [corr_matrix | e];
    [| discriminate].
  destruct (calculate_rolling_betas lib df 180) as [rolling_df | e] eqn:Hcalc;
    [| discriminate].
  injection Hrun as <-.
  exists df, rolling_df.
  split; [reflexivity | split; [exact Hcalc |]].
  split; [| split].
  - intros Hshort.
    rewrite calculate_rolling_betas_flat_map in Hcalc.
    injection Hcalc as <-.
    unfold range.
    replace (length (dropna df) - 180) with 0 by lia.
    reflexivity.
  - intros ->.
    split.
    + simpl.
      repeat (first [left; reflexivity | right]).
    + intros points.
      apply (existsb_false_not_In is_betas_chart); reflexivity.
  - intros Hne.
    destruct rolling_df as [| p rolling_df]; [congruence |].
    split; [| split].
    + simpl.
      repeat (first [left; reflexivity | right]).
    + apply (existsb_false_not_In is_regression_warning); reflexivity.
    + unfold betas_chart; cbn [fig_lines].
      repeat constructor; cbn [line_x line_y]; now rewrite length_map.
Qed.

Lemma regression_section_of_the_page_witness :
  exists page,
    run_app Demo.library DemoCorr.DataFrame_corr
      (Some (map Examples.price_row (seq 0 100)))
      (Some (map Examples.macro_row (seq 0 100)))
    = (page, Finished)
    /\ In regression_warning page.
Proof.
  eexists.
  assert (Hrun : run_app Demo.library DemoCorr.DataFrame_corr
                   (Some (map Examples.price_row (seq 0 100)))
                   (Some (map Examples.macro_row (seq 0 100)))
                 = (_, Finished)) by (vm_compute; reflexivity).
  split; [exact Hrun |].
  destruct (regression_section_of_the_page _ _ _ _ _ Hrun)
    as [df [rolling_df [Hload [Hcalc [Hshort [Hempty _]]]]]].
  apply Hempty, Hshort.
  assert (E : Ok df = Ok Examples.table_100).
  { rewrite <- Hload.
    vm_compute; reflexivity. }
  injection E as ->.
  vm_compute; lia.
Defined.

(** A chart whose lines have as many ordinates as abscissas. *)
Definition lines_match (e : element) : Prop :=
  match e with
  | st_pyplot fig =>
      Forall (fun l => length (line_x l) = length (line_y l)) (fig_lines fig)
  | _ => True
  end.

(** X12.  Whatever the uploads and however the run ends, every line the
    script draws has one ordinate per abscissa: the script never hands the
    plotting library two series of different lengths.  Once [load_data] has
    returned, the charts of the prices and of the two correlations are on the
    page, with one point per row of the merged table; the heatmap and the
    chart of the ratio are there once the correlation matrix is computed. *)
Theorem charts_have_matching_series :
  forall (lib : Library)
         (DataFrame_corr : frame -> result (list (string * list float64)))
         (uploaded_gold : option (list (PriceRow date_cell)))
         (uploaded_macro : option (list (MacroRow date_cell))),
    let page := fst (run_app lib DataFrame_corr uploaded_gold uploaded_macro) in
    Forall lines_match page
    /\ forall gold macro df,
        uploaded_gold = Some gold -> uploaded_macro = Some macro ->
        load_data lib gold macro = Ok df ->
        (forall fig,
            In fig [price_chart df; dxy_corr_chart df; yield_corr_chart df] ->
            In (st_pyplot fig) page)
        /\ (forall corr_matrix,
               DataFrame_corr (corr_cols df) = Ok corr_matrix ->
               In (st_pyplot_heatmap (corr_heatmap corr_matrix)) page
               /\ In (st_pyplot (ratio_chart df)) page)
        /\ (forall fig,
               In fig [price_chart df; dxy_corr_chart df; yield_corr_chart df;
                       ratio_chart df] ->
               Forall (fun l => length (line_x l) = length df
                                /\ length (line_y l) = length df)
                      (fig_lines fig)).
Proof.
  intros lib DataFrame_corr uploaded_gold uploaded_macro page.
  subst page.
  split.
  - unfold run_app.
    destruct uploaded_gold as [gold |]; destruct uploaded_macro as [macro |];
      try (simpl; repeat constructor).
    destruct (load_data lib gold macro) as [df | e];
      [| simpl; repeat constructor].
    destruct (DataFrame_corr (corr_cols df)) as [corr_matrix | e];
      [| simpl; repeat constructor; simpl; now rewrite !length_map].
    destruct (calculate_rolling_betas lib df 180) as [rolling_df | e];
      [| simpl; repeat constructor; simpl; now rewrite !length_map].
    destruct rolling_df as [| p rolling_df];
      simpl; repeat constructor; simpl; now rewrite !length_map.
  - intros gold macro df -> -> Hload.
    unfold run_app.
    rewrite Hload.
    split; [| split].
    + intros fig Hfig.
      destruct (DataFrame_corr (corr_cols df)) as [corr_matrix | e];
        [destruct (calculate_rolling_betas lib df 180) as [rolling_df | e] |];
        simpl in Hfig |- *;
        destruct Hfig as [<- | [<- | [<- | []]]];
        repeat (first [left; reflexivity | right]).
    + intros corr_matrix ->.
      destruct (calculate_rolling_betas lib df 180) as [rolling_df | e];
        simpl; split; repeat (first [left; reflexivity | right]).
    + intros fig Hfig.
      simpl in Hfig.
      destruct Hfig as [<- | [<- | [<- | [<- | []]]]];
        simpl; repeat constructor; simpl; now rewrite length_map.
Qed.

Lemma charts_have_matching_series_witness :
  In (st_pyplot (price_chart Examples.small_table))
     (fst (run_app Demo.library DemoCorr.DataFrame_corr
             (Some Examples.small_prices) (Some Examples.small_macro)))
  /\ Forall (fun l => length (line_x l) = length Examples.small_table
                      /\ length (line_y l) = length Examples.small_table)
            (fig_lines (price_chart Examples.small_table)).
Proof.
  destruct (proj2 (charts_have_matching_series Demo.library
                     DemoCorr.DataFrame_corr
                     (Some Examples.small_prices) (Some Examples.small_macro))
              Examples.small_prices Examples.small_macro Examples.small_table
              eq_refl eq_refl) as [Hin [_ Hlen]].
  - vm_compute; reflexivity.
  - split.
    + apply Hin; simpl; tauto.
    + apply Hlen; simpl; tauto.
Defined.
